(** * Multi-agent email triage: the supervisor's decision procedure

    A shallow embedding of the TypeScript sources

      - [src/types.ts]                      (Email, AgentDecision, TriageResult,
                                             EmailTriageState)
      - [src/agents/customerSupportAgent.ts],
        [src/agents/salesAgent.ts], [src/agents/hrAgent.ts],
        [src/agents/spamFilterAgent.ts]     (the four evaluators)
      - [src/agents/supervisorAgent.ts]     (SupervisorAgent)
      - [src/index.ts]                      (the batch runner, [main])

    and the properties of them that the specification states.

    Conventions of the embedding.

      - A JavaScript string is a [string]: one [ascii] per code unit, so the
        model covers the strings whose code units are below 256.
      - A JavaScript number holding a confidence is a [Z].  [parseInt] of a run
        of decimal digits is its exact value (the source rounds to a double
        beyond 2^53).
      - An [async] function is a computation in the monad [Js]: it threads the
        world (the calls made to the text-generation service so far and the
        lines written with [console.error]) and completes normally or
        abruptly, as a promise resolves or rejects.
      - The text-generation service is a parameter: a function from the
        client, the prompt and the calls made before to the outcome of the
        call.  A service that ignores the history is a deterministic stub.
      - [console.log] lines are informational and left out; [console.error]
        lines are kept, as events. *)

From Stdlib Require Import String Ascii List ZArith Bool Lia.
From Stdlib Require Import Sorted Permutation.
Import ListNotations.

Local Open Scope string_scope.
Local Open Scope list_scope.
Local Open Scope Z_scope.

(* ================================================================== *)
(** ** JavaScript strings and the regular expressions of the sources *)
(* ================================================================== *)

Module JsString.

Definition LF : ascii := "010"%char.

Definition code (c : ascii) : nat := nat_of_ascii c.

(** [\d] *)
Definition is_digit (c : ascii) : bool :=
  (48 <=? code c)%nat && (code c <=? 57)%nat.

(** [\w], that is [A-Za-z0-9_] *)
Definition is_word (c : ascii) : bool :=
  is_digit c
  || ((65 <=? code c)%nat && (code c <=? 90)%nat)
  || ((97 <=? code c)%nat && (code c <=? 122)%nat)
  || (code c =? 95)%nat.

(** The line terminators, which [.] does not match without the [s] flag. *)
Definition is_line_terminator (c : ascii) : bool :=
  (code c =? 10)%nat || (code c =? 13)%nat.

(** White space and line terminators, which [trim] strips. *)
Definition is_white_space (c : ascii) : bool :=
  ((9 <=? code c)%nat && (code c <=? 13)%nat)
  || (code c =? 32)%nat || (code c =? 160)%nat.

(** [stripPrefix p s] is what follows [p] in [s] when [s] starts with [p]. *)
Fixpoint stripPrefix (p s : string) : option string :=
  match p, s with
  | EmptyString, _ => Some s
  | String a p', String b s' =>
      if Ascii.eqb a b then stripPrefix p' s' else None
  | String _ _, EmptyString => None
  end.

Definition startsWith (s p : string) : bool :=
  match stripPrefix p s with Some _ => true | None => false end.

(** [String.prototype.includes] *)
Fixpoint includes (s needle : string) : bool :=
  startsWith s needle
  || match s with
     | EmptyString => false
     | String _ s' => includes s' needle
     end.

(** [s.match(re)] for a regular expression without the [g] flag: the match
    at the leftmost position where the expression matches.  [m] matches the
    expression anchored at the start of its argument and returns what the
    source reads from the match. *)
Fixpoint search {A : Type} (m : string -> option A) (s : string) : option A :=
  match m s with
  | Some v => Some v
  | None =>
      match s with
      | EmptyString => None
      | String _ s' => search m s'
      end
  end.

(** The longest prefix of characters in a class: a greedy [c*]. *)
Fixpoint span (p : ascii -> bool) (s : string) : string :=
  match s with
  | EmptyString => EmptyString
  | String c s' => if p c then String c (span p s') else EmptyString
  end.

(** A greedy [c+] with nothing after it in the expression. *)
Definition plus (p : ascii -> bool) (s : string) : option string :=
  match span p s with
  | EmptyString => None
  | r => Some r
  end.

(** A lazy [(c+?)(?=stop)]: the shortest non-empty run of characters of the
    class [dot] after which [stop] holds of the rest of the input. *)
Fixpoint lazyPlus (dot : ascii -> bool) (stop : string -> bool) (s : string)
  : option string :=
  match s with
  | EmptyString => None
  | String c rest =>
      if dot c then
        if stop rest then Some (String c EmptyString)
        else option_map (String c) (lazyPlus dot stop rest)
      else None
  end.

Definition isEmpty (s : string) : bool :=
  match s with EmptyString => true | _ => false end.

(** Every character of [s] is in the class [p]. *)
Fixpoint all (p : ascii -> bool) (s : string) : bool :=
  match s with
  | EmptyString => true
  | String c s' => p c && all p s'
  end.

(** [split('\n')] *)
Fixpoint splitLines (s : string) : list string :=
  match s with
  | EmptyString => [EmptyString]
  | String c rest =>
      if Ascii.eqb c LF then EmptyString :: splitLines rest
      else match splitLines rest with
           | h :: t => String c h :: t
           | [] => [String c EmptyString]
           end
  end.

Fixpoint trimStart (s : string) : string :=
  match s with
  | EmptyString => EmptyString
  | String c rest => if is_white_space c then trimStart rest else s
  end.

Fixpoint trimEnd (s : string) : string :=
  match s with
  | EmptyString => EmptyString
  | String c rest =>
      match trimEnd rest with
      | EmptyString => if is_white_space c then EmptyString
                       else String c EmptyString
      | r => String c r
      end
  end.

(** [String.prototype.trim] *)
Definition trim (s : string) : string := trimEnd (trimStart s).

(** [parseInt] on a run of decimal digits. *)
Definition digitValue (c : ascii) : Z := Z.of_nat (code c) - 48.

Fixpoint parseDigits (acc : Z) (s : string) : Z :=
  match s with
  | EmptyString => acc
  | String c rest => parseDigits (10 * acc + digitValue c) rest
  end.

Definition parseInt (s : string) : Z := parseDigits 0 s.

(** Template literals print a number in decimal. *)
Definition digitChar (d : Z) : ascii := ascii_of_nat (Z.to_nat (48 + d)).

Fixpoint showDigits (fuel : nat) (n : Z) (acc : string) : string :=
  match fuel with
  | O => acc
  | S fuel' =>
      let acc' := String (digitChar (n mod 10)) acc in
      if n / 10 =? 0 then acc' else showDigits fuel' (n / 10) acc'
  end.

Definition showNumber (n : Z) : string :=
  if n <? 0
  then String "-"%char (showDigits (S (Z.to_nat (Z.log2 (- n)))) (- n) EmptyString)
  else showDigits (S (Z.to_nat (Z.log2 n))) n EmptyString.

(** [String.prototype.toLowerCase] on code units below 256: the letters
    [A-Z] and the accented capitals U+00C0 to U+00DE, the multiplication
    sign U+00D7 apart. *)
Definition lowerChar (c : ascii) : ascii :=
  if ((65 <=? code c)%nat && (code c <=? 90)%nat)
     || ((192 <=? code c)%nat && (code c <=? 222)%nat
         && negb (code c =? 215)%nat)
  then ascii_of_nat (code c + 32)
  else c.

Fixpoint toLowerCase (s : string) : string :=
  match s with
  | EmptyString => EmptyString
  | String c s' => String (lowerChar c) (toLowerCase s')
  end.

End JsString.

(* ================================================================== *)
(** ** The data model ([src/types.ts]) *)
(* ================================================================== *)

Inductive Priority : Set := low | medium | high | urgent.

Module Email.
Record t : Type := mk
  { id : string;
    from : string;
    to : string;
    subject : string;
    body : string;
    timestamp : Z;                       (* a Date, in ms since the epoch *)
    priority : option Priority;
    category : option string }.
End Email.

Module TriageResult.
Record t : Type := mk
  { emailId : string;
    category : string;
    priority : Priority;
    assignedAgent : string;
    summary : string;
    suggestedActions : list string;
    requiresHumanReview : bool }.
End TriageResult.

Module AgentDecision.
Record t : Type := mk
  { shouldHandle : bool;
    confidence : Z;
    reasoning : string;
    suggestedActions : option (list string);     (* suggestedActions? *)
    escalate : option bool }.                    (* escalate? *)
End AgentDecision.

(** A [Record<string, AgentDecision>] built by assignments to string keys
    that are not array indices: its own properties are enumerated in the
    order of their insertion, so it is an association list in that order. *)
Definition Decisions : Type := list (string * AgentDecision.t).

Module EmailTriageState.
Record t : Type := mk
  { email : Email.t;
    category : option string;
    priority : option Priority;
    assignedAgent : option string;
    agentDecisions : Decisions;
    finalResult : option TriageResult.t;
    requiresEscalation : bool }.
End EmailTriageState.

(** [o[k] = v] *)
Fixpoint setProperty (o : Decisions) (k : string) (v : AgentDecision.t)
  : Decisions :=
  match o with
  | [] => [(k, v)]
  | (k', v') :: o' =>
      if String.eqb k' k then (k, v) :: o' else (k', v') :: setProperty o' k v
  end.

(** [o[k]], [None] for [undefined].  A name that [Object.prototype] defines
    ([constructor], [toString], ...) reads as an object without [reasoning]
    and [suggestedActions]: for the only reader, [createTriageResult], that
    is the same as [undefined]. *)
Fixpoint getProperty (o : Decisions) (k : string) : option AgentDecision.t :=
  match o with
  | [] => None
  | (k', v') :: o' => if String.eqb k' k then Some v' else getProperty o' k
  end.

(** [Array.prototype.sort] with a comparator: a stable sort (ECMAScript 2019),
    here by insertion.  [cmp a b <= 0] keeps [a] before [b]. *)
Fixpoint insertBy {A : Type} (cmp : A -> A -> Z) (x : A) (l : list A) : list A :=
  match l with
  | [] => [x]
  | y :: l' => if cmp x y <=? 0 then x :: l else y :: insertBy cmp x l'
  end.

Definition sortBy {A : Type} (cmp : A -> A -> Z) (l : list A) : list A :=
  fold_right (insertBy cmp) [] l.

(* ================================================================== *)
(** ** Asynchronous computations, the service and the console *)
(* ================================================================== *)

Inductive Agent : Set := CustomerSupport | Sales | HR | SpamFilter.

(** The [ChatOpenAI] clients: one per evaluator and the supervisor's. *)
Inductive Llm : Set := AgentLlm (a : Agent) | SupervisorLlm.

Inductive Error : Set :=
| ServiceError (message : string)      (* [llm.invoke] rejects *)
| TypeError (message : string).

(** [response.content]: a string, or a list of content blocks, which the
    cast [as string] leaves as it is. *)
Inductive MessageContent : Set := Text (s : string) | Complex.

Inductive Outcome : Set :=
| Resolved (content : MessageContent)
| Rejected (error : Error).

Definition Call : Set := (Llm * string)%type.

(** The text-generation service: client, prompt, earlier calls. *)
Definition Service : Type := Llm -> string -> list Call -> Outcome.

(** The [console.error] calls of the sources. *)
Inductive ConsoleError : Set :=
| MissingApiKey
    (* 'Error: OPENAI_API_KEY environment variable is required' *)
| EvaluationError (a : Agent) (error : Error)
    (* 'Error in <a>Agent evaluation:', error *)
| ConflictResolutionError (error : Error)
    (* 'Error in conflict resolution:', error *)
| ProcessingError (emailId : string) (error : Error).
    (* `Error processing email ${email.id}:`, error *)

Record World : Type := mkWorld
  { calls : list Call;
    console : list ConsoleError }.

Inductive Completion (A : Type) : Type :=
| Normal (a : A)
| Throw (error : Error).
Arguments Normal {A} a.
Arguments Throw {A} error.

Definition Js (A : Type) : Type := World -> Completion A * World.

Definition ret {A : Type} (a : A) : Js A := fun w => (Normal a, w).

Definition throw {A : Type} (error : Error) : Js A := fun w => (Throw error, w).

Definition bind {A B : Type} (m : Js A) (k : A -> Js B) : Js B :=
  fun w =>
    match m w with
    | (Normal a, w') => k a w'
    | (Throw error, w') => (Throw error, w')
    end.

(** [try { body } catch (error) { handler }] *)
Definition tryCatch {A : Type} (body : Js A) (handler : Error -> Js A) : Js A :=
  fun w =>
    match body w with
    | (Normal a, w') => (Normal a, w')
    | (Throw error, w') => handler error w'
    end.

Notation "x <- m ;; k" := (bind m (fun x => k))
  (at level 61, m at next level, right associativity).
Notation "m ;;; k" := (bind m (fun _ => k))
  (at level 61, right associativity).

(** [await llm.invoke(prompt)], then [response.content]. *)
Definition invoke (service : Service) (llm : Llm) (prompt : string)
  : Js MessageContent :=
  fun w =>
    let w' := mkWorld (calls w ++ [(llm, prompt)]) (console w) in
    match service llm prompt (calls w) with
    | Resolved content => (Normal content, w')
    | Rejected error => (Throw error, w')
    end.

Definition consoleError (line : ConsoleError) : Js unit :=
  fun w => (Normal tt, mkWorld (calls w) (console w ++ [line])).

(* ================================================================== *)
(** ** The evaluators ([src/agents/*Agent.ts]) *)
(* ================================================================== *)

Module Evaluator.
Import JsString.

Definition getName (a : Agent) : string :=
  match a with
  | CustomerSupport => "CustomerSupport"
  | Sales => "Sales"
  | HR => "HR"
  | SpamFilter => "SpamFilter"
  end.

Definition customerSupportPrompt (email : Email.t) : string :=
  ("
You are a Customer Support Agent specializing in handling customer support requests, technical issues, and service-related inquiries.

Analyze this email and determine if it should be handled by the Customer Support team:

FROM: "
  ++ Email.from email
  ++ "
SUBJECT: "
  ++ Email.subject email
  ++ "
BODY: "
  ++ Email.body email
  ++ "

Consider these factors:
1. Is this a customer support request?
2. Does it involve technical issues or service problems?
3. Does the customer need assistance or resolution?
4. What is the urgency level?

Respond with your analysis in this format:
SHOULD_HANDLE: true/false
CONFIDENCE: 0-100
REASONING: Brief explanation
SUGGESTED_ACTIONS: List of recommended actions
ESCALATE: true/false (if requires immediate escalation)
")%string.

Definition salesPrompt (email : Email.t) : string :=
  ("
You are a Sales Agent specializing in handling sales inquiries, lead qualification, and business development opportunities.

Analyze this email and determine if it should be handled by the Sales team:

FROM: "
  ++ Email.from email
  ++ "
SUBJECT: "
  ++ Email.subject email
  ++ "
BODY: "
  ++ Email.body email
  ++ "

Consider these factors:
1. Is this a sales inquiry or business opportunity?
2. Does the sender show buying intent?
3. Is this a potential lead that could convert?
4. What is the business value potential?

Respond with your analysis in this format:
SHOULD_HANDLE: true/false
CONFIDENCE: 0-100
REASONING: Brief explanation
SUGGESTED_ACTIONS: List of recommended actions
ESCALATE: true/false (if high-value lead requiring immediate attention)
")%string.

Definition hrPrompt (email : Email.t) : string :=
  ("
You are an HR Agent specializing in handling HR-related communications, recruitment inquiries, employee matters, and internal communications.

Analyze this email and determine if it should be handled by the HR team:

FROM: "
  ++ Email.from email
  ++ "
SUBJECT: "
  ++ Email.subject email
  ++ "
BODY: "
  ++ Email.body email
  ++ "

Consider these factors:
1. Is this related to recruitment, hiring, or candidate inquiries?
2. Does it involve employee relations or internal communications?
3. Is it about benefits, payroll, or company policies?
4. Should HR be involved in this communication?

Respond with your analysis in this format:
SHOULD_HANDLE: true/false
CONFIDENCE: 0-100
REASONING: Brief explanation
SUGGESTED_ACTIONS: List of recommended actions
ESCALATE: true/false (if requires senior HR attention)
")%string.

Definition spamFilterPrompt (email : Email.t) : string :=
  ("
You are a Spam Filter Agent specializing in identifying and filtering out spam, newsletters, promotional emails, and low-priority communications.

Analyze this email and determine if it should be filtered out as spam/low-priority:

FROM: "
  ++ Email.from email
  ++ "
SUBJECT: "
  ++ Email.subject email
  ++ "
BODY: "
  ++ Email.body email
  ++ "

Consider these factors:
1. Is this spam, newsletter, or promotional content?
2. Is this automated or mass-sent communication?
3. Does it lack business value or personal relevance?
4. Should it be filtered to reduce noise?

Respond with your analysis in this format:
SHOULD_HANDLE: true/false (true if should be filtered out)
CONFIDENCE: 0-100
REASONING: Brief explanation
SUGGESTED_ACTIONS: List of recommended actions
ESCALATE: false (spam filter rarely escalates)
")%string.

Definition prompt (a : Agent) (email : Email.t) : string :=
  match a with
  | CustomerSupport => customerSupportPrompt email
  | Sales => salesPrompt email
  | HR => hrPrompt email
  | SpamFilter => spamFilterPrompt email
  end.

(** [/CONFIDENCE: (\d+)/], anchored; the capture. *)
Definition confidencePattern (s : string) : option string :=
  match stripPrefix "CONFIDENCE: " s with
  | Some rest => plus is_digit rest
  | None => None
  end.

Definition atLineEnd (rest : string) : bool :=
  isEmpty rest || startsWith rest (String LF EmptyString).

(** [/REASONING: (.+?)(?=\n|$)/], anchored; the capture. *)
Definition reasoningPattern (s : string) : option string :=
  match stripPrefix "REASONING: " s with
  | Some rest => lazyPlus (fun c => negb (is_line_terminator c)) atLineEnd rest
  | None => None
  end.

(** [/ESCALATE: (true|false)/], anchored; the capture. *)
Definition escalatePattern (s : string) : option string :=
  match stripPrefix "ESCALATE: " s with
  | Some rest =>
      if startsWith rest "true" then Some "true"
      else if startsWith rest "false" then Some "false"
      else None
  | None => None
  end.

Definition atEscalateOrEnd (rest : string) : bool :=
  startsWith rest (String LF "ESCALATE") || isEmpty rest.

(** [/SUGGESTED_ACTIONS: (.+?)(?=\nESCALATE|$)/s], anchored; the capture.
    With the [s] flag [.] matches every character. *)
Definition actionsPattern (s : string) : option string :=
  match stripPrefix "SUGGESTED_ACTIONS: " s with
  | Some rest => lazyPlus (fun _ => true) atEscalateOrEnd rest
  | None => None
  end.

(** The body of the [try] block after the call, the same text in the four
    evaluators. *)
Definition parseDecision (content : string) : AgentDecision.t :=
  let shouldHandle := includes content "SHOULD_HANDLE: true" in
  let confidenceMatch := search confidencePattern content in
  let confidence :=
    match confidenceMatch with Some c => parseInt c | None => 50 end in
  let reasoningMatch := search reasoningPattern content in
  let reasoning :=
    match reasoningMatch with
    | Some r => trim r
    | None => "Analysis completed"
    end in
  let escalateMatch := search escalatePattern content in
  let escalate :=
    match escalateMatch with
    | Some e => String.eqb e "true"
    | None => false
    end in
  let actionsMatch := search actionsPattern content in
  let suggestedActions :=
    match actionsMatch with
    | Some a =>
        filter (fun action => (0 <? String.length action)%nat)
               (map trim (splitLines a))
    | None => []
    end in
  AgentDecision.mk shouldHandle confidence reasoning
                   (Some suggestedActions) (Some escalate).

(** The decision of the [catch] block: [escalate: true] in
    [CustomerSupportAgent], [escalate: false] in the other three; no
    [suggestedActions]. *)
Definition degraded (a : Agent) : AgentDecision.t :=
  AgentDecision.mk false 0 "Error occurred during evaluation" None
    (Some match a with CustomerSupport => true | _ => false end).

(** [content.includes] and [content.match] on a string; on a list of
    content blocks [includes] is the array's and answers, and [match] is
    not a function. *)
Definition parseContent (content : MessageContent) : Js AgentDecision.t :=
  match content with
  | Text s => ret (parseDecision s)
  | Complex => throw (TypeError "content.match is not a function")
  end.

Definition evaluate (service : Service) (a : Agent) (email : Email.t)
  : Js AgentDecision.t :=
  tryCatch
    (content <- invoke service (AgentLlm a) (prompt a email) ;;
     parseContent content)
    (fun error =>
       consoleError (EvaluationError a error) ;;;
       ret (degraded a)).

End Evaluator.

(* ================================================================== *)
(** ** The supervisor ([src/agents/supervisorAgent.ts]) *)
(* ================================================================== *)

Module SupervisorAgent.
Import JsString.

(** [await Promise.all([a, b, c])].  The three asynchronous calls are started
    in the order written, each running up to its [await]; the join resolves
    once all three have, and rejects if one of them does.  The model runs
    them in the order they are started: the calls to the service are
    recorded in the order of the source.  The [console.error] lines of the
    three come out in that order too, where the source writes each one as
    its own call settles; nothing below is stated of the relative order of
    these lines. *)
Definition promiseAll3 {A : Type} (a b c : Js A) : Js (A * A * A) :=
  fun w =>
    let '(ra, w1) := a w in
    let '(rb, w2) := b w1 in
    let '(rc, w3) := c w2 in
    match ra, rb, rc with
    | Normal x, Normal y, Normal z => (Normal (x, y, z), w3)
    | Throw error, _, _ => (Throw error, w3)
    | _, Throw error, _ => (Throw error, w3)
    | _, _, Throw error => (Throw error, w3)
    end.

(** The truth value of an optional boolean: [undefined] is falsy. *)
Definition truthy (b : option bool) : bool :=
  match b with Some true => true | _ => false end.

(** [determinePriority] *)
Definition determinePriority (decision : AgentDecision.t) : Priority :=
  if truthy (AgentDecision.escalate decision) then urgent
  else if AgentDecision.confidence decision >? 90 then high
  else if AgentDecision.confidence decision >? 70 then medium
  else low.

(** [createTriageResult]; [requiresHumanReview] defaults to [false].
    [x || y] takes [y] when [x] is [undefined] or the empty string; an
    empty array is truthy. *)
Definition createTriageResult (state : EmailTriageState.t) (category : string)
    (priority : Priority) (assignedAgent : string)
    (requiresHumanReview : option bool) : TriageResult.t :=
  let assignedDecision :=
    getProperty (EmailTriageState.agentDecisions state) assignedAgent in
  TriageResult.mk
    (Email.id (EmailTriageState.email state))
    category
    priority
    assignedAgent
    (match assignedDecision with
     | Some d =>
         if isEmpty (AgentDecision.reasoning d)
         then ("Email categorized as " ++ category)%string
         else AgentDecision.reasoning d
     | None => ("Email categorized as " ++ category)%string
     end)
    (match assignedDecision with
     | Some d =>
         match AgentDecision.suggestedActions d with
         | Some actions => actions
         | None => [("Route to " ++ assignedAgent ++ " team")%string]
         end
     | None => [("Route to " ++ assignedAgent ++ " team")%string]
     end)
    (match requiresHumanReview with Some b => b | None => false end).

(** The filter of [makeRoutingDecision]. *)
Definition isWilling (entry : string * AgentDecision.t) : bool :=
  AgentDecision.shouldHandle (snd entry)
  && (AgentDecision.confidence (snd entry) >? 50).

(** The comparator of [makeRoutingDecision]: [b.confidence - a.confidence]. *)
Definition byConfidence (a b : string * AgentDecision.t) : Z :=
  AgentDecision.confidence (snd b) - AgentDecision.confidence (snd a).

(** [Object.entries(decisions).filter(...).sort(...)] *)
Definition willingAgents (decisions : Decisions)
  : list (string * AgentDecision.t) :=
  sortBy byConfidence (filter isWilling decisions).

(** [/ASSIGNED_AGENT: (\w+)/], anchored; the capture. *)
Definition assignedAgentPattern (s : string) : option string :=
  match stripPrefix "ASSIGNED_AGENT: " s with
  | Some rest => plus is_word rest
  | None => None
  end.

(** [/PRIORITY: (low|medium|high|urgent)/], anchored; the capture. *)
Definition priorityPattern (s : string) : option Priority :=
  match stripPrefix "PRIORITY: " s with
  | Some rest =>
      if startsWith rest "low" then Some low
      else if startsWith rest "medium" then Some medium
      else if startsWith rest "high" then Some high
      else if startsWith rest "urgent" then Some urgent
      else None
  | None => None
  end.

Definition analysisLine (entry : string * AgentDecision.t) : string :=
  (fst entry ++ ": " ++ AgentDecision.reasoning (snd entry)
   ++ " (Confidence: " ++ showNumber (AgentDecision.confidence (snd entry))
   ++ "%)")%string.

Definition conflictPrompt (email : Email.t) (agentAnalysis : string) : string :=
  ("
As a Supervisor Agent, you need to decide which specialist should handle this email.

EMAIL DETAILS:
FROM: "
  ++ Email.from email
  ++ "
SUBJECT: "
  ++ Email.subject email
  ++ "
BODY: "
  ++ Email.body email
  ++ "

AGENT ANALYSES:
"
  ++ agentAnalysis
  ++ "

Based on the email content and agent analyses, decide which agent should handle this email.
Consider:
1. Which agent's expertise best matches the email content?
2. Which agent has the highest confidence and best reasoning?
3. What is the appropriate priority level?

Respond in this exact format:
ASSIGNED_AGENT: [AgentName]
PRIORITY: [low/medium/high/urgent]
REASONING: [Brief explanation]
")%string.

(** [willingAgents.map(...).join('\n')] *)
Definition agentAnalysisOf (willing : list (string * AgentDecision.t)) : string :=
  String.concat (String LF EmptyString) (map analysisLine willing).

(** [willingAgents[0][0]]; reading it from an empty array is a TypeError. *)
Definition firstAgent (willing : list (string * AgentDecision.t)) : Js string :=
  match willing with
  | (name, _) :: _ => ret name
  | [] => throw (TypeError "Cannot read properties of undefined")
  end.

(** The [try] block of [resolveConflict] after the call. *)
Definition parseResolution (state : EmailTriageState.t)
    (willing : list (string * AgentDecision.t)) (content : MessageContent)
  : Js TriageResult.t :=
  match content with
  | Text s =>
      let agentMatch := search assignedAgentPattern s in
      let priorityMatch := search priorityPattern s in
      assignedAgent <-
        match agentMatch with
        | Some name => ret name
        | None => firstAgent willing
        end ;;
      let priority :=
        match priorityMatch with Some p => p | None => medium end in
      ret (createTriageResult state assignedAgent priority assignedAgent
                              (Some false))
  | Complex => throw (TypeError "content.match is not a function")
  end.

(** [resolveConflict] *)
Definition resolveConflict (service : Service) (state : EmailTriageState.t)
    (willing : list (string * AgentDecision.t)) : Js TriageResult.t :=
  let agentAnalysis := agentAnalysisOf willing in
  let prompt := conflictPrompt (EmailTriageState.email state) agentAnalysis in
  tryCatch
    (content <- invoke service SupervisorLlm prompt ;;
     parseResolution state willing content)
    (fun error =>
       consoleError (ConflictResolutionError error) ;;;
       fallbackAgent <- firstAgent willing ;;
       ret (createTriageResult state fallbackAgent medium fallbackAgent
                               (Some false))).

(** [makeRoutingDecision] *)
Definition makeRoutingDecision (service : Service) (state : EmailTriageState.t)
  : Js TriageResult.t :=
  let decisions := EmailTriageState.agentDecisions state in
  let willing := willingAgents decisions in
  match willing with
  | [] => ret (createTriageResult state "General" medium "General" (Some true))
  | [(agentName, decision)] =>
      let priority := determinePriority decision in
      ret (createTriageResult state agentName priority agentName
                              (AgentDecision.escalate decision))
  | _ => resolveConflict service state willing
  end.

Definition record (state : EmailTriageState.t) (name : string)
    (decision : AgentDecision.t) : EmailTriageState.t :=
  EmailTriageState.mk
    (EmailTriageState.email state)
    (EmailTriageState.category state)
    (EmailTriageState.priority state)
    (EmailTriageState.assignedAgent state)
    (setProperty (EmailTriageState.agentDecisions state) name decision)
    (EmailTriageState.finalResult state)
    (EmailTriageState.requiresEscalation state).

Definition initialState (email : Email.t) : EmailTriageState.t :=
  EmailTriageState.mk email None None None [] None false.

(** [triageEmail] *)
Definition triageEmail (service : Service) (email : Email.t)
  : Js TriageResult.t :=
  let state := initialState email in
  spamDecision <- Evaluator.evaluate service SpamFilter email ;;
  let state := record state "SpamFilter" spamDecision in
  if AgentDecision.shouldHandle spamDecision
     && (AgentDecision.confidence spamDecision >? 70)
  then ret (createTriageResult state "Spam/Low-Priority" low "SpamFilter" None)
  else
    decisions <- promiseAll3 (Evaluator.evaluate service CustomerSupport email)
                             (Evaluator.evaluate service Sales email)
                             (Evaluator.evaluate service HR email) ;;
    let '(customerSupportDecision, salesDecision, hrDecision) := decisions in
    let state := record state "CustomerSupport" customerSupportDecision in
    let state := record state "Sales" salesDecision in
    let state := record state "HR" hrDecision in
    makeRoutingDecision service state.

End SupervisorAgent.

(* ================================================================== *)
(** ** The fixture ([src/sampleEmails.ts]) *)
(* ================================================================== *)

Definition DQ : ascii := "034"%char.

Definition email_001 : Email.t :=
  Email.mk "email-001" "sarah.chen@techcorp.com" "support@company.com"
    "Critical Payment Processing Issue - Urgent"
    "Hi, our payment gateway has been down for the past 2 hours. We're losing thousands of dollars per minute. This needs immediate attention. Error code: PAY_GW_500. Please escalate to your technical team ASAP."
    1736951400000 None None.

Definition email_002 : Email.t :=
  Email.mk "email-002" "john.smith@example.com" "sales@company.com"
    "Inquiry about Enterprise Pricing"
    "Hello, I represent a Fortune 500 company interested in your enterprise solution. We have approximately 10,000 employees and are looking for a comprehensive package. Could you please send me detailed pricing information and schedule a demo? Best regards, John Smith, CTO"
    1736936100000 None None.

Definition email_003 : Email.t :=
  Email.mk "email-003" "noreply@newsletter.com" "info@company.com"
    "Weekly Industry Newsletter - AI Trends"
    "This week in AI: Latest developments in machine learning, new funding rounds, and market analysis. Click here to read the full newsletter."
    1736928000000 None None.

Definition email_004 : Email.t :=
  Email.mk "email-004" "lisa.wong@customer.com" "support@company.com"
    "Login Issues with Account"
    ("I've been trying to log into my account for the past hour but keep getting an " ++ String DQ "invalid credentials" ++ String DQ " error. I've tried resetting my password twice but the reset emails aren't coming through. My username is lisa.wong and my account ID is CUS-12345.")%string
    1736948700000 None None.

Definition email_005 : Email.t :=
  Email.mk "email-005" "hr@company.com" "all@company.com"
    "Team Building Event - Next Friday"
    "Dear Team, we're organizing a team building event next Friday at the downtown office. Lunch will be provided. Please RSVP by Wednesday. Thanks, HR Department"
    1736933400000 None None.

Definition email_006 : Email.t :=
  Email.mk "email-006" "recruiter@headhunters.com" "careers@company.com"
    "Exceptional Senior Developer Available"
    "We have a senior full-stack developer with 8 years of experience looking for new opportunities. Expert in React, Node.js, and cloud architecture. Available for immediate hire. Would you like to see their resume?"
    1736940000000 None None.

(** [sampleEmails] of [src/sampleEmails.ts]; a [new Date(...)] is given in
    milliseconds since the epoch. *)
Definition sampleEmails : list Email.t :=
  [email_001; email_002; email_003; email_004; email_005; email_006].


(* ================================================================== *)
(** ** The batch runner ([src/index.ts]) *)
(* ================================================================== *)

Module Batch.

(** The body of the [for] loop: [try { results.push(await triage(email)) }
    catch (error) { console.error(...) }].  [triage] is the supervisor's
    [triageEmail]; the loop is written over any such function. *)
Definition processEmail (triage : Email.t -> Js TriageResult.t)
    (results : list TriageResult.t) (email : Email.t) (w : World)
  : list TriageResult.t * World :=
  match triage email w with
  | (Normal result, w') => (results ++ [result], w')
  | (Throw error, w') =>
      (results,
       mkWorld (calls w') (console w' ++ [ProcessingError (Email.id email) error]))
  end.

(** [for (let i = 0; i < emails.length; i++) { const email = emails[i]; ... }];
    [fuel] bounds the iterations and is the length of the list. *)
Fixpoint forLoop (triage : Email.t -> Js TriageResult.t) (emails : list Email.t)
    (fuel i : nat) (results : list TriageResult.t) (w : World)
  : list TriageResult.t * World :=
  match fuel with
  | O => (results, w)
  | S fuel' =>
      match nth_error emails i with
      | Some email =>
          let '(results', w') := processEmail triage results email w in
          forLoop triage emails fuel' (S i) results' w'
      | None => (results, w)
      end
  end.

Definition processEmails (triage : Email.t -> Js TriageResult.t)
    (emails : list Email.t) (w : World) : list TriageResult.t * World :=
  forLoop triage emails (length emails) 0%nat [] w.

Inductive Exit : Type :=
| ExitCode (code : Z)                            (* [process.exit(code)] *)
| Completed (results : list TriageResult.t).

(** The body of [main] over a list of emails: the credential check, then
    the loop with a new [SupervisorAgent].  [apiKey] is
    [process.env.OPENAI_API_KEY]; the summary printed after the loop is
    [console.log] only. *)
Definition runBatch (service : Service) (apiKey : option string)
    (emails : list Email.t) (w : World) : Exit * World :=
  match apiKey with
  | None | Some EmptyString =>
      (ExitCode 1, mkWorld (calls w) (console w ++ [MissingApiKey]))
  | Some _ =>
      let '(results, w') :=
        processEmails (SupervisorAgent.triageEmail service) emails w in
      (Completed results, w')
  end.

(** [main]: the list is the imported [sampleEmails]. *)
Definition main (service : Service) (apiKey : option string) (w : World)
  : Exit * World :=
  runBatch service apiKey sampleEmails w.

End Batch.

(* ================================================================== *)
(** ** The rule-based demo ([src/simple-demo.ts]) *)
(* ================================================================== *)

Module SimpleDemo.
Import JsString.

(** The demo declares its own, simplified interfaces. *)
Module Email.
Record t : Type := mk
  { id : string;
    from : string;
    to : string;
    subject : string;
    body : string;
    timestamp : Z }.
End Email.

Module TriageResult.
Record t : Type := mk
  { emailId : string;
    category : string;
    priority : string;
    assignedAgent : string;
    summary : string;
    requiresHumanReview : bool }.
End TriageResult.

Definition sampleEmails : list Email.t :=
  [Email.mk "email-001" "sarah.chen@techcorp.com" "support@company.com"
     "Critical Payment Processing Issue - Urgent"
     "Hi, our payment gateway has been down for the past 2 hours. We're losing thousands of dollars per minute. This needs immediate attention. Error code: PAY_GW_500. Please escalate to your technical team ASAP."
     1736951400000;
   Email.mk "email-002" "john.smith@example.com" "sales@company.com"
     "Inquiry about Enterprise Pricing"
     "Hello, I represent a Fortune 500 company interested in your enterprise solution. We have approximately 10,000 employees and are looking for a comprehensive package. Could you please send me detailed pricing information and schedule a demo?"
     1736936100000;
   Email.mk "email-003" "noreply@newsletter.com" "info@company.com"
     "Weekly Industry Newsletter - AI Trends"
     "This week in AI: Latest developments in machine learning, new funding rounds, and market analysis. Click here to read the full newsletter."
     1736928000000].

(** The conditions of the [if]/[else if] chain, on [text]. *)
Definition spamWords (from text : string) : bool :=
  includes from "noreply" || includes text "newsletter"
  || includes text "unsubscribe".

Definition urgentWords (text : string) : bool :=
  includes text "urgent" || includes text "critical" || includes text "down".

Definition supportWords (text : string) : bool :=
  includes text "urgent" || includes text "critical" || includes text "down"
  || includes text "error" || includes text "issue" || includes text "problem"
  || includes text "support" || includes text "help".

Definition salesWords (text : string) : bool :=
  includes text "pricing" || includes text "demo" || includes text "enterprise"
  || includes text "purchase" || includes text "buy" || includes text "quote"
  || includes text "inquiry" || includes text "fortune".

Definition hrWords (text : string) : bool :=
  includes text "recruit" || includes text "candidate" || includes text "resume"
  || includes text "job" || includes text "employee" || includes text "hr".

(** [SimpleTriageAgent.triageEmail]: the four variables assigned along the
    chain are the components of the tuple. *)
Definition triageEmail (email : Email.t) : TriageResult.t :=
  let subject := toLowerCase (Email.subject email) in
  let body := toLowerCase (Email.body email) in
  let text := (subject ++ " " ++ body)%string in
  let '(category, priority, assignedAgent, requiresHumanReview) :=
    if spamWords (Email.from email) text then
      ("Spam/Newsletter", "low", "SpamFilter", false)
    else if supportWords text then
      if urgentWords text
      then ("Customer Support", "urgent", "CustomerSupport", true)
      else ("Customer Support", "high", "CustomerSupport", false)
    else if salesWords text then
      if includes text "fortune" || includes text "enterprise"
      then ("Sales", "high", "Sales", true)
      else ("Sales", "high", "Sales", false)
    else if hrWords text then
      ("HR", "medium", "HR", false)
    else
      ("General", "medium", "General", false) in
  TriageResult.mk (Email.id email) category priority assignedAgent
    ("Email categorized as " ++ category ++ " based on content analysis")%string
    requiresHumanReview.

(** A [Record<string, number>] used as a table of counters.  The keys the
    demo writes are agent names and priorities, none of them an array index
    or a name that [Object.prototype] defines. *)
Definition Counts : Type := list (string * Z).

Fixpoint getCount (o : Counts) (k : string) : option Z :=
  match o with
  | [] => None
  | (k', v) :: o' => if String.eqb k' k then Some v else getCount o' k
  end.

Fixpoint setCount (o : Counts) (k : string) (v : Z) : Counts :=
  match o with
  | [] => [(k, v)]
  | (k', v') :: o' =>
      if String.eqb k' k then (k, v) :: o' else (k', v') :: setCount o' k v
  end.

(** [o[k] = (o[k] || 0) + 1] *)
Definition increment (o : Counts) (k : string) : Counts :=
  setCount o k
    (match getCount o k with
     | Some v => if v =? 0 then 0 else v
     | None => 0
     end + 1).

Record Summary : Type := mkSummary
  { total : Z;
    byAgent : Counts;
    byPriority : Counts;
    requiresReview : Z }.

(** The body of [results.forEach]. *)
Definition tally (summary : Summary) (result : TriageResult.t) : Summary :=
  mkSummary
    (total summary)
    (increment (byAgent summary) (TriageResult.assignedAgent result))
    (increment (byPriority summary) (TriageResult.priority result))
    (if TriageResult.requiresHumanReview result
     then requiresReview summary + 1
     else requiresReview summary).

Definition summarize (results : list TriageResult.t) : Summary :=
  fold_left tally results
    (mkSummary (Z.of_nat (length results)) [] [] 0).

(** The loop of [main]: [for (const email of emails) results.push(...)],
    then the summary. *)
Definition run (emails : list Email.t) : list TriageResult.t * Summary :=
  let results :=
    fold_left (fun results email => results ++ [triageEmail email]) emails [] in
  (results, summarize results).

Definition main : list TriageResult.t * Summary := run sampleEmails.

End SimpleDemo.

(* ================================================================== *)
(** ** Vocabulary of the specification *)
(* ================================================================== *)

Definition emptyWorld : World := mkWorld [] [].

(** The calls made between two worlds of one run. *)
Definition callsSince (w w' : World) : list Call :=
  skipn (length (calls w)) (calls w').

(** The four calls of the evaluators for an email, in the order they are
    made. *)
Definition evaluatorCalls (email : Email.t) : list Call :=
  [(AgentLlm SpamFilter, Evaluator.prompt SpamFilter email);
   (AgentLlm CustomerSupport, Evaluator.prompt CustomerSupport email);
   (AgentLlm Sales, Evaluator.prompt Sales email);
   (AgentLlm HR, Evaluator.prompt HR email)].

(** The value of a computation that completed normally. *)
Definition value {A : Type} (r : Completion A * World) : option A :=
  match fst r with Normal a => Some a | Throw _ => None end.

(** The decisions recorded when the Decide step is reached. *)
Definition decideState (email : Email.t)
    (spam customerSupport sales hr : AgentDecision.t) : EmailTriageState.t :=
  EmailTriageState.mk email None None None
    [("SpamFilter", spam); ("CustomerSupport", customerSupport);
     ("Sales", sales); ("HR", hr)]
    None false.

(** The names the specification allows in [assignedAgent]: the evaluator
    names and the fallback sentinels. *)
Definition allowedAgents : list string :=
  ["SpamFilter"; "CustomerSupport"; "Sales"; "HR"; "General"; "Manual"].


(** The outcome of an evaluator's call is a failure: the call rejects, or
    the content is not a string and reading the fields raises. *)
Definition callFails (o : Outcome) : Prop :=
  match o with
  | Rejected _ => True
  | Resolved Complex => True
  | Resolved (Text _) => False
  end.

(** Stubbed evaluators: the reply of an evaluator's client depends on the
    prompt only. *)
Definition deterministicEvaluators (service : Service) : Prop :=
  forall a prompt h1 h2,
    service (AgentLlm a) prompt h1 = service (AgentLlm a) prompt h2.

(** Every client stubbed, the supervisor's included. *)
Definition deterministicService (service : Service) : Prop :=
  forall llm prompt h1 h2, service llm prompt h1 = service llm prompt h2.

(** A computation whose completion does not depend on the world it starts
    in. *)
Definition worldIndependent {A : Type} (m : Js A) : Prop :=
  forall w1 w2, fst (m w1) = fst (m w2).

(** The batch run as the specification words it: the emails are taken in
    input order, each on the world the previous one left; a result is
    appended for an email that is processed, and an email whose processing
    raises is logged with its identifier and left out. *)
Inductive batchRun (triage : Email.t -> Js TriageResult.t)
  : list Email.t -> World -> list TriageResult.t -> World -> Prop :=
| batchDone w :
    batchRun triage [] w [] w
| batchResult email emails w result w1 results w2 :
    triage email w = (Normal result, w1) ->
    batchRun triage emails w1 results w2 ->
    batchRun triage (email :: emails) w (result :: results) w2
| batchSkip email emails w error w1 results w2 :
    triage email w = (Throw error, w1) ->
    batchRun triage emails
      (mkWorld (calls w1) (console w1 ++ [ProcessingError (Email.id email) error]))
      results w2 ->
    batchRun triage (email :: emails) w results w2.

(** The confidence of an entry of the recorded decisions. *)
Definition confidenceOf (e : string * AgentDecision.t) : Z :=
  AgentDecision.confidence (snd e).

(** The number of times a key occurs in a list of keys. *)
Definition occurrences (k : string) (keys : list string) : Z :=
  Z.of_nat (length (filter (String.eqb k) keys)).

(** The sum of the counters of a table. *)
Definition countsTotal (o : SimpleDemo.Counts) : Z :=
  fold_right (fun entry acc => snd entry + acc) 0 o.

(** What a table of counters built from a list of keys should hold. *)
Definition countsOf (o : SimpleDemo.Counts) (keys : list string) : Prop :=
  (forall k,
     SimpleDemo.getCount o k
     = if occurrences k keys =? 0 then None else Some (occurrences k keys))
  /\ countsTotal o = Z.of_nat (length keys)
  /\ NoDup (map fst o).

(** A label of the reply format: a colon occurs in it before any line
    feed. *)
Fixpoint colonFirst (label : string) : bool :=
  match label with
  | EmptyString => false
  | String c label' =>
      if Ascii.eqb c ":"%char then true
      else if Ascii.eqb c JsString.LF then false
      else colonFirst label'
  end.

(** Free text without a colon and without a line terminator. *)
Definition plain (s : string) : bool :=
  JsString.all
    (fun c => negb (Ascii.eqb c ":"%char) && negb (JsString.is_line_terminator c))
    s.

Definition showBool (b : bool) : string := if b then "true" else "false".

Definition showPriority (p : Priority) : string :=
  match p with
  | low => "low" | medium => "medium" | high => "high" | urgent => "urgent"
  end.

(** The order low < medium < high < urgent. *)
Definition priorityRank (p : Priority) : Z :=
  match p with low => 0 | medium => 1 | high => 2 | urgent => 3 end.

(** A reply in the format the evaluators' prompts ask for. *)
Definition formatReply (shouldHandle : bool) (confidence reasoning actions : string)
    (escalate : bool) : string :=
  ("SHOULD_HANDLE: " ++ showBool shouldHandle
   ++ String JsString.LF ("CONFIDENCE: " ++ confidence
   ++ String JsString.LF ("REASONING: " ++ reasoning
   ++ String JsString.LF ("SUGGESTED_ACTIONS: " ++ actions
   ++ String JsString.LF ("ESCALATE: " ++ showBool escalate)))))%string.

(** A reply in the format the supervisor's prompt asks for. *)
Definition formatResolution (agent : string) (priority : Priority)
    (reasoning : string) : string :=
  ("ASSIGNED_AGENT: " ++ agent
   ++ String JsString.LF ("PRIORITY: " ++ showPriority priority
   ++ String JsString.LF ("REASONING: " ++ reasoning)))%string.

(** *** Stub services used as concrete inputs *)

Module Stub.
Import JsString.

Definition nl : string := String LF EmptyString.

Definition reply (shouldHandle : string) (confidence : string)
    (escalate : string) : Outcome :=
  Resolved (Text ("SHOULD_HANDLE: " ++ shouldHandle ++ nl
                  ++ "CONFIDENCE: " ++ confidence ++ nl
                  ++ "REASONING: Stubbed analysis" ++ nl
                  ++ "SUGGESTED_ACTIONS: Reply to sender" ++ nl
                  ++ "ESCALATE: " ++ escalate)%string).

(** The spam filter fires at 95. *)
Definition spam : Service :=
  fun llm _ _ =>
    match llm with
    | AgentLlm SpamFilter => reply "true" "95" "false"
    | _ => reply "false" "10" "false"
    end.

(** Only the sales evaluator is willing, at 95, without escalation. *)
Definition salesOnly : Service :=
  fun llm _ _ =>
    match llm with
    | AgentLlm Sales => reply "true" "95" "false"
    | _ => reply "false" "20" "false"
    end.

(** Nobody is willing. *)
Definition nobody : Service :=
  fun _ _ _ => reply "false" "40" "false".

(** Only the spam filter is willing, below its own threshold. *)
Definition mildSpam : Service :=
  fun llm _ _ =>
    match llm with
    | AgentLlm SpamFilter => reply "true" "60" "false"
    | _ => reply "false" "20" "false"
    end.

(** Support and sales are both willing; the supervisor's call is given. *)
Definition conflict (supervisor : list Call -> Outcome) : Service :=
  fun llm _ history =>
    match llm with
    | AgentLlm CustomerSupport => reply "true" "80" "false"
    | AgentLlm Sales => reply "true" "90" "false"
    | AgentLlm _ => reply "false" "20" "false"
    | SupervisorLlm => supervisor history
    end.


Definition conflictProse : Service :=
  conflict (fun _ => Resolved (Text "Both teams have a point.")).

Definition conflictLegal : Service :=
  conflict (fun _ =>
    Resolved (Text ("ASSIGNED_AGENT: Legal" ++ nl ++ "PRIORITY: high" ++ nl
                    ++ "REASONING: Contract terms")%string)).

(** The supervisor's client answers differently on its second call. *)
Definition conflictFlip : Service :=
  conflict (fun history =>
    if existsb (fun c => match fst c with SupervisorLlm => true | _ => false end)
               history
    then Resolved (Text "ASSIGNED_AGENT: CustomerSupport")
    else Resolved (Text "ASSIGNED_AGENT: Sales")).

(** A reply in prose, with none of the labelled fields. *)
Definition prose : string := "Sorry, I cannot analyze this email.".

Definition proseService : Service := fun _ _ _ => Resolved (Text prose).

Definition down : Service :=
  fun _ _ _ => Rejected (ServiceError "network error").

(** A supervisor whose processing of the second sample email raises. *)
Definition faulty (service : Service) (email : Email.t) : Js TriageResult.t :=
  if String.eqb (Email.id email) "email-002"
  then throw (TypeError "Cannot read properties of undefined")
  else SupervisorAgent.triageEmail service email.

End Stub.

(* ================================================================== *)
(** ** Facts about strings and the patterns *)
(* ================================================================== *)

Module JsStringFacts.
Import JsString.

Lemma stripPrefix_sound (p s r : string) :
  stripPrefix p s = Some r -> s = (p ++ r)%string.
Proof.
  revert s; induction p as [|a p IH]; intros s H; simpl in *.
  - now inversion H.
  - destruct s as [|b s]; [discriminate|].
    destruct (Ascii.eqb a b) eqn:E; [|discriminate].
    apply Ascii.eqb_eq in E; subst b.
    now rewrite (IH _ H).
Qed.

Lemma stripPrefix_complete (p r : string) :
  stripPrefix p (p ++ r)%string = Some r.
Proof.
  induction p as [|a p IH]; simpl; [reflexivity|].
  now rewrite Ascii.eqb_refl.
Qed.

Lemma startsWith_sound (s p : string) :
  startsWith s p = true -> exists r, s = (p ++ r)%string.
Proof.
  unfold startsWith; destruct (stripPrefix p s) as [r|] eqn:E; [|discriminate].
  intros _; exists r; now apply stripPrefix_sound.
Qed.

Lemma startsWith_complete (p r : string) :
  startsWith (p ++ r)%string p = true.
Proof. unfold startsWith; now rewrite stripPrefix_complete. Qed.


Lemma includes_complete (pre needle post : string) :
  includes (pre ++ needle ++ post)%string needle = true.
Proof.
  induction pre as [|c pre IH].
  - simpl ((_ ++ _)%string).
    destruct (needle ++ post)%string eqn:E; simpl; rewrite <- E;
      now rewrite startsWith_complete.
  - simpl; rewrite IH; apply orb_true_r.
Qed.


(** A match found by [search] is a match of the anchored expression at some
    position of the input. *)
Lemma search_sound {A : Type} (m : string -> option A) (s : string) (v : A) :
  search m s = Some v ->
  exists pre suf, s = (pre ++ suf)%string /\ m suf = Some v.
Proof.
  induction s as [|c s IH]; simpl; intros H.
  - destruct (m EmptyString) eqn:E; [|discriminate].
    inversion H; subst; now exists EmptyString, EmptyString.
  - destruct (m (String c s)) eqn:E.
    + inversion H; subst; now exists EmptyString, (String c s).
    + destruct (IH H) as (pre & suf & -> & Hm); now exists (String c pre), suf.
Qed.

Lemma search_complete {A : Type} (m : string -> option A) (pre suf : string)
    (v : A) :
  m suf = Some v -> exists v', search m (pre ++ suf)%string = Some v'.
Proof.
  intros Hm; induction pre as [|c pre IH].
  - simpl ((_ ++ _)%string); destruct suf; simpl; rewrite Hm; now exists v.
  - simpl; destruct (m (String c (pre ++ suf))) as [v'|]; [now exists v'|].
    exact IH.
Qed.


Lemma plus_all (p : ascii -> bool) (s r : string) :
  plus p s = Some r -> all p r = true /\ r <> EmptyString.
Proof.
  unfold plus; intros H.
  assert (Hall : forall t, all p (span p t) = true).
  { induction t as [|c t IH]; simpl; [reflexivity|].
    destruct (p c) eqn:E; simpl; [now rewrite E|reflexivity]. }
  destruct (span p s) eqn:E; [discriminate|].
  inversion H; subst; split; [rewrite <- E; apply Hall|discriminate].
Qed.

Lemma lazyPlus_sound (dot : ascii -> bool) (stop : string -> bool)
    (s cap : string) :
  lazyPlus dot stop s = Some cap ->
  exists post, s = (cap ++ post)%string /\ cap <> EmptyString
               /\ all dot cap = true /\ stop post = true.
Proof.
  revert cap; induction s as [|c s IH]; simpl; intros cap H; [discriminate|].
  destruct (dot c) eqn:Hd; [|discriminate].
  destruct (stop s) eqn:Hs.
  - inversion H; subst; exists s; simpl; rewrite Hd; repeat split; congruence.
  - destruct (lazyPlus dot stop s) as [cap'|]; [|discriminate].
    inversion H; subst.
    destruct (IH cap' eq_refl) as (post & -> & _ & Hall & Hstop).
    exists post; simpl; rewrite Hd, Hall; repeat split; congruence.
Qed.

End JsStringFacts.

Module EvaluatorFacts.
Import JsString JsStringFacts Evaluator.


Lemma atLineEnd_sound (post : string) :
  atLineEnd post = true ->
  post = EmptyString \/ exists t, post = String LF t.
Proof.
  unfold atLineEnd; intros H; apply orb_true_iff in H; destruct H as [H|H].
  - destruct post; [now left|discriminate].
  - right; apply startsWith_sound in H; destruct H as [r ->]; now exists r.
Qed.

Lemma reasoningPattern_sound (s cap : string) :
  reasoningPattern s = Some cap ->
  exists post, s = ("REASONING: " ++ cap ++ post)%string
               /\ cap <> EmptyString
               /\ all (fun c => negb (is_line_terminator c)) cap = true
               /\ (post = EmptyString \/ exists t, post = String LF t).
Proof.
  unfold reasoningPattern.
  destruct (stripPrefix "REASONING: " s) as [r|] eqn:E; [|discriminate].
  intros H; apply lazyPlus_sound in H.
  destruct H as (post & -> & Hne & Hall & Hstop).
  apply stripPrefix_sound in E; exists post; repeat split; auto.
  now apply atLineEnd_sound.
Qed.



(** The three ways an evaluation can go. *)
Lemma evaluate_text (service : Service) (a : Agent) (email : Email.t)
    (w : World) (content : string) :
  service (AgentLlm a) (prompt a email) (calls w) = Resolved (Text content) ->
  evaluate service a email w =
    (Normal (parseDecision content),
     mkWorld (calls w ++ [(AgentLlm a, prompt a email)]) (console w)).
Proof.
  intros H; unfold evaluate, tryCatch, bind, invoke; now rewrite H.
Qed.

Lemma evaluate_complex (service : Service) (a : Agent) (email : Email.t)
    (w : World) :
  service (AgentLlm a) (prompt a email) (calls w) = Resolved Complex ->
  evaluate service a email w =
    (Normal (degraded a),
     mkWorld (calls w ++ [(AgentLlm a, prompt a email)])
             (console w ++ [EvaluationError a
                              (TypeError "content.match is not a function")])).
Proof.
  intros H; unfold evaluate, tryCatch, bind, invoke; now rewrite H.
Qed.

Lemma evaluate_rejected (service : Service) (a : Agent) (email : Email.t)
    (w : World) (error : Error) :
  service (AgentLlm a) (prompt a email) (calls w) = Rejected error ->
  evaluate service a email w =
    (Normal (degraded a),
     mkWorld (calls w ++ [(AgentLlm a, prompt a email)])
             (console w ++ [EvaluationError a error])).
Proof.
  intros H; unfold evaluate, tryCatch, bind, invoke; now rewrite H.
Qed.

(** An evaluation completes normally and makes exactly one call. *)
Lemma evaluate_normal (service : Service) (a : Agent) (email : Email.t)
    (w : World) :
  exists decision w',
    evaluate service a email w = (Normal decision, w')
    /\ calls w' = calls w ++ [(AgentLlm a, prompt a email)].
Proof.
  destruct (service (AgentLlm a) (prompt a email) (calls w))
    as [[content|]|error] eqn:E.
  - rewrite (evaluate_text _ _ _ _ _ E); eauto.
  - rewrite (evaluate_complex _ _ _ _ E); eauto.
  - rewrite (evaluate_rejected _ _ _ _ _ E); eauto.
Qed.

End EvaluatorFacts.

(* ================================================================== *)
(** ** Facts about the supervisor *)
(* ================================================================== *)

Module SupervisorFacts.
Import JsString JsStringFacts Evaluator EvaluatorFacts SupervisorAgent.

Section Sorting.
Context {A : Type} (cmp : A -> A -> Z).

Lemma insertBy_In (x y : A) (l : list A) :
  In y (insertBy cmp x l) <-> y = x \/ In y l.
Proof.
  induction l as [|z l IH]; simpl.
  - intuition congruence.
  - destruct (cmp x z <=? 0); simpl; [intuition congruence|].
    rewrite IH; intuition congruence.
Qed.

Lemma sortBy_In (y : A) (l : list A) : In y (sortBy cmp l) <-> In y l.
Proof.
  induction l as [|x l IH]; simpl; [tauto|].
  rewrite insertBy_In, IH; intuition congruence.
Qed.

Lemma insertBy_length (x : A) (l : list A) :
  length (insertBy cmp x l) = S (length l).
Proof.
  induction l as [|z l IH]; simpl; [reflexivity|].
  destruct (cmp x z <=? 0); simpl; now rewrite ?IH.
Qed.

Lemma sortBy_length (l : list A) : length (sortBy cmp l) = length l.
Proof.
  induction l as [|x l IH]; simpl; [reflexivity|].
  now rewrite insertBy_length, IH.
Qed.
End Sorting.


Lemma willingAgents_In (decisions : Decisions) (e : string * AgentDecision.t) :
  In e (willingAgents decisions) <-> In e decisions /\ isWilling e = true.
Proof. unfold willingAgents; now rewrite sortBy_In, filter_In. Qed.

Lemma willingAgents_length (decisions : Decisions) :
  length (willingAgents decisions) = length (filter isWilling decisions).
Proof. apply sortBy_length. Qed.

Lemma willingAgents_single (decisions : Decisions)
    (e : string * AgentDecision.t) :
  filter isWilling decisions = [e] -> willingAgents decisions = [e].
Proof. unfold willingAgents; now intros ->. Qed.

Lemma willingAgents_none (decisions : Decisions) :
  filter isWilling decisions = [] -> willingAgents decisions = [].
Proof. unfold willingAgents; now intros ->. Qed.

(** The spam short-circuit. *)
Lemma triageEmail_spam (service : Service) (email : Email.t) (w w1 : World)
    (spam : AgentDecision.t) :
  evaluate service SpamFilter email w = (Normal spam, w1) ->
  AgentDecision.shouldHandle spam
    && (AgentDecision.confidence spam >? 70) = true ->
  triageEmail service email w =
    (Normal (createTriageResult
               (record (initialState email) "SpamFilter" spam)
               "Spam/Low-Priority" low "SpamFilter" None), w1).
Proof.
  intros He Hc; unfold triageEmail, bind; rewrite He, Hc; reflexivity.
Qed.

(** Past the spam check the three specialists are evaluated in turn and the
    Decide step runs on the four recorded decisions. *)
Lemma triageEmail_decide (service : Service) (email : Email.t)
    (w w1 w2 w3 w4 : World) (spam customerSupport sales hr : AgentDecision.t) :
  evaluate service SpamFilter email w = (Normal spam, w1) ->
  evaluate service CustomerSupport email w1 = (Normal customerSupport, w2) ->
  evaluate service Sales email w2 = (Normal sales, w3) ->
  evaluate service HR email w3 = (Normal hr, w4) ->
  AgentDecision.shouldHandle spam
    && (AgentDecision.confidence spam >? 70) = false ->
  triageEmail service email w =
    makeRoutingDecision service
      (decideState email spam customerSupport sales hr) w4.
Proof.
  intros Hs Hc Hsa Hh Hno.
  unfold triageEmail, bind, promiseAll3; rewrite Hs, Hno, Hc, Hsa, Hh.
  reflexivity.
Qed.

(** Every run of [triageEmail] is of one of the two kinds. *)
Lemma triageEmail_cases (service : Service) (email : Email.t) (w : World) :
  exists spam w1,
    evaluate service SpamFilter email w = (Normal spam, w1)
    /\ ((AgentDecision.shouldHandle spam
           && (AgentDecision.confidence spam >? 70) = true
         /\ triageEmail service email w =
              (Normal (createTriageResult
                         (record (initialState email) "SpamFilter" spam)
                         "Spam/Low-Priority" low "SpamFilter" None), w1))
        \/ (AgentDecision.shouldHandle spam
              && (AgentDecision.confidence spam >? 70) = false
            /\ exists customerSupport sales hr w2 w3 w4,
                 evaluate service CustomerSupport email w1
                   = (Normal customerSupport, w2)
                 /\ evaluate service Sales email w2 = (Normal sales, w3)
                 /\ evaluate service HR email w3 = (Normal hr, w4)
                 /\ triageEmail service email w =
                      makeRoutingDecision service
                        (decideState email spam customerSupport sales hr) w4)).
Proof.
  destruct (evaluate_normal service SpamFilter email w) as (spam & w1 & Hs & _).
  exists spam, w1; split; [exact Hs|].
  destruct (AgentDecision.shouldHandle spam
            && (AgentDecision.confidence spam >? 70)) eqn:Hc.
  - left; split; [reflexivity|]. now apply triageEmail_spam.
  - right; split; [reflexivity|].
    destruct (evaluate_normal service CustomerSupport email w1)
      as (c & w2 & Hcs & _).
    destruct (evaluate_normal service Sales email w2) as (s & w3 & Hsa & _).
    destruct (evaluate_normal service HR email w3) as (h & w4 & Hh & _).
    exists c, s, h, w2, w3, w4; repeat split; auto.
    now apply (triageEmail_decide service email w w1 w2 w3 w4).
Qed.

(** The conflict-resolution step on a non-empty list of willing agents:
    what it returns in each case of the supervisor's call. *)
Lemma resolveConflict_cases (service : Service) (state : EmailTriageState.t)
    (top : string * AgentDecision.t) (rest : list (string * AgentDecision.t))
    (w : World) :
  let willing := top :: rest in
  let request :=
    conflictPrompt (EmailTriageState.email state) (agentAnalysisOf willing) in
  exists w',
    match service SupervisorLlm request (calls w) with
    | Resolved (Text content) =>
        resolveConflict service state willing w =
          (Normal
             (let agent :=
                match search assignedAgentPattern content with
                | Some name => name
                | None => fst top
                end in
              createTriageResult state agent
                match search priorityPattern content with
                | Some p => p
                | None => medium
                end agent (Some false)), w')
    | _ =>
        resolveConflict service state willing w =
          (Normal (createTriageResult state (fst top) medium (fst top)
                                      (Some false)), w')
    end.
Proof.
  intros willing request; destruct top as [name decision].
  unfold resolveConflict, tryCatch, bind, invoke; fold request.
  destruct (service SupervisorLlm request (calls w)) as [[content|]|error];
    simpl.
  - destruct (search assignedAgentPattern content); simpl;
      eexists; reflexivity.
  - eexists; reflexivity.
  - eexists; reflexivity.
Qed.

End SupervisorFacts.

(* ================================================================== *)
(** ** The properties of the specification *)
(* ================================================================== *)

Import JsString JsStringFacts Evaluator EvaluatorFacts.
Import SupervisorAgent SupervisorFacts.

Lemma callsSince_app (w w' : World) (l : list Call) :
  calls w' = calls w ++ l -> callsSince w w' = l.
Proof.
  unfold callsSince; intros ->.
  rewrite skipn_app, skipn_all, Nat.sub_diag; reflexivity.
Qed.

Lemma gtb_above (a b : Z) : b < a -> (a >? b) = true.
Proof. intros H; rewrite Z.gtb_ltb; now apply Z.ltb_lt. Qed.

Lemma gtb_below (a b : Z) : a <= b -> (a >? b) = false.
Proof. intros H; rewrite Z.gtb_ltb; now apply Z.ltb_ge. Qed.


Lemma unwilling_not_isWilling (name : string) (d : AgentDecision.t) :
  AgentDecision.shouldHandle d = false \/ AgentDecision.confidence d <= 50 ->
  isWilling (name, d) = false.
Proof.
  unfold isWilling; simpl; intros [->|H]; [reflexivity|].
  apply andb_false_iff; right; apply gtb_below; lia.
Qed.

(** C1.  When the SpamFilter evaluator returns a decision with
    [shouldHandle = true] and a confidence above 70, [triageEmail] ends at
    once, in the world the spam evaluation left, with category
    "Spam/Low-Priority", priority low, assigned agent "SpamFilter" and no
    human review; the only call made is the spam filter's, so the
    CustomerSupport, Sales and HR evaluators are not invoked. *)
Theorem spam_short_circuit (service : Service) (email : Email.t)
    (w w1 : World) (spam : AgentDecision.t) :
  evaluate service SpamFilter email w = (Normal spam, w1) ->
  AgentDecision.shouldHandle spam = true ->
  70 < AgentDecision.confidence spam ->
  exists result,
    triageEmail service email w = (Normal result, w1)
    /\ TriageResult.category result = "Spam/Low-Priority"
    /\ TriageResult.priority result = low
    /\ TriageResult.assignedAgent result = "SpamFilter"
    /\ TriageResult.requiresHumanReview result = false
    /\ callsSince w w1 = [(AgentLlm SpamFilter, prompt SpamFilter email)]
    /\ (forall a request,
          In (AgentLlm a, request) (callsSince w w1) -> a = SpamFilter).
Proof.
  intros He Hs Hc.
  assert (Hfire : AgentDecision.shouldHandle spam
                  && (AgentDecision.confidence spam >? 70) = true).
  { rewrite Hs; simpl; now apply gtb_above. }
  rewrite (triageEmail_spam service email w w1 spam He Hfire).
  eexists; split; [reflexivity|].
  destruct (evaluate_normal service SpamFilter email w) as (d & w' & He' & Hcalls).
  rewrite He in He'; inversion He'; subst d w'.
  rewrite (callsSince_app _ _ _ Hcalls).
  repeat split.
  intros a request [H|[]]; now inversion H.
Qed.

Lemma spam_short_circuit_witness :
  exists spam w1,
    evaluate Stub.spam SpamFilter email_003 emptyWorld = (Normal spam, w1)
    /\ AgentDecision.shouldHandle spam = true
    /\ 70 < AgentDecision.confidence spam
    /\ exists result,
         triageEmail Stub.spam email_003 emptyWorld = (Normal result, w1)
         /\ TriageResult.category result = "Spam/Low-Priority"
         /\ TriageResult.priority result = low
         /\ TriageResult.assignedAgent result = "SpamFilter"
         /\ TriageResult.requiresHumanReview result = false
         /\ callsSince emptyWorld w1
            = [(AgentLlm SpamFilter, prompt SpamFilter email_003)]
         /\ (forall a request,
               In (AgentLlm a, request) (callsSince emptyWorld w1) ->
               a = SpamFilter).
Proof.
  eexists; eexists.
  split; [vm_compute; reflexivity|].
  split; [reflexivity|].
  split; [reflexivity|].
  eapply spam_short_circuit; [vm_compute; reflexivity|reflexivity|reflexivity].
Defined.



(** A decision with [shouldHandle = true], [escalate = true] and confidence
    10 is below the threshold of the willing set: on its own it leaves the
    email to "General" at medium, whatever the ladder gives for it. *)
Example escalation_below_threshold :
  let idle := AgentDecision.mk false 20 "Not mine" (Some []) (Some false) in
  let alarm := AgentDecision.mk true 10 "An outage" (Some []) (Some true) in
  let state := decideState email_001 idle alarm idle idle in
  determinePriority alarm = urgent
  /\ filter isWilling (EmailTriageState.agentDecisions state) = []
  /\ option_map TriageResult.assignedAgent
       (value (makeRoutingDecision Stub.nobody state emptyWorld))
     = Some "General"
  /\ option_map TriageResult.priority
       (value (makeRoutingDecision Stub.nobody state emptyWorld))
     = Some medium.
Proof. repeat split. Qed.

(** C3.  When every evaluator's decision has [shouldHandle = false] or a
    confidence of at most 50, the result is category "General", priority
    medium, assigned agent "General", with human review required. *)
Theorem nobody_willing (service : Service) (email : Email.t)
    (w w1 w2 w3 w4 : World) (spam customerSupport sales hr : AgentDecision.t) :
  evaluate service SpamFilter email w = (Normal spam, w1) ->
  evaluate service CustomerSupport email w1 = (Normal customerSupport, w2) ->
  evaluate service Sales email w2 = (Normal sales, w3) ->
  evaluate service HR email w3 = (Normal hr, w4) ->
  (AgentDecision.shouldHandle spam = false
   \/ AgentDecision.confidence spam <= 50) ->
  (AgentDecision.shouldHandle customerSupport = false
   \/ AgentDecision.confidence customerSupport <= 50) ->
  (AgentDecision.shouldHandle sales = false
   \/ AgentDecision.confidence sales <= 50) ->
  (AgentDecision.shouldHandle hr = false
   \/ AgentDecision.confidence hr <= 50) ->
  exists result,
    triageEmail service email w = (Normal result, w4)
    /\ TriageResult.category result = "General"
    /\ TriageResult.priority result = medium
    /\ TriageResult.assignedAgent result = "General"
    /\ TriageResult.requiresHumanReview result = true.
Proof.
  intros Hs Hc Hsa Hh Us Uc Usa Uh.
  assert (Hno : AgentDecision.shouldHandle spam
                && (AgentDecision.confidence spam >? 70) = false).
  { destruct Us as [->|Us]; [reflexivity|].
    apply andb_false_iff; right; apply gtb_below; lia. }
  rewrite (triageEmail_decide service email w w1 w2 w3 w4 _ _ _ _
             Hs Hc Hsa Hh Hno).
  unfold makeRoutingDecision.
  rewrite willingAgents_none.
  - eexists; split; [reflexivity|]; repeat split.
  - simpl.
    rewrite (unwilling_not_isWilling "SpamFilter" spam Us),
            (unwilling_not_isWilling "CustomerSupport" customerSupport Uc),
            (unwilling_not_isWilling "Sales" sales Usa),
            (unwilling_not_isWilling "HR" hr Uh).
    reflexivity.
Qed.

Lemma nobody_willing_witness :
  exists result w4,
    triageEmail Stub.nobody email_005 emptyWorld = (Normal result, w4)
    /\ TriageResult.category result = "General"
    /\ TriageResult.priority result = medium
    /\ TriageResult.assignedAgent result = "General"
    /\ TriageResult.requiresHumanReview result = true.
Proof.
  pose (d := parseDecision
               ("SHOULD_HANDLE: false" ++ Stub.nl ++ "CONFIDENCE: 40" ++ Stub.nl
                ++ "REASONING: Stubbed analysis" ++ Stub.nl
                ++ "SUGGESTED_ACTIONS: Reply to sender" ++ Stub.nl
                ++ "ESCALATE: false")%string).
  destruct (nobody_willing Stub.nobody email_005 emptyWorld _ _ _ _ d d d d
              (evaluate_text _ _ _ _ _ eq_refl)
              (evaluate_text _ _ _ _ _ eq_refl)
              (evaluate_text _ _ _ _ _ eq_refl)
              (evaluate_text _ _ _ _ _ eq_refl)
              (or_introl eq_refl) (or_introl eq_refl)
              (or_introl eq_refl) (or_introl eq_refl))
    as (result & H).
  exists result; eexists; exact H.
Defined.



(** The same on a reply in prose, from which neither field can be read:
    sales, at 90, is assigned over support, at 80. *)
Example conflict_fallback_on_prose :
  option_map
    (fun r => (TriageResult.assignedAgent r, TriageResult.priority r,
               TriageResult.requiresHumanReview r))
    (value (triageEmail Stub.conflictProse email_001 emptyWorld))
  = Some ("Sales", medium, false).
Proof. vm_compute; reflexivity. Qed.

(** C5, as amended.  An evaluation never raises.  When the external call
    fails, or its content is not a string so that reading the fields
    raises, the evaluator logs the error and returns the degraded decision:
    [shouldHandle = false], confidence 0, the reasoning "Error occurred
    during evaluation", and [escalate] true for CustomerSupport and false
    for the others.  A textual reply is never a failure: it is parsed, with
    the defaults for the fields it lacks. *)
Theorem evaluator_failure_contract (service : Service) (a : Agent)
    (email : Email.t) (w : World) :
  exists decision w',
    evaluate service a email w = (Normal decision, w')
    /\ (callFails (service (AgentLlm a) (prompt a email) (calls w)) ->
        AgentDecision.shouldHandle decision = false
        /\ AgentDecision.confidence decision = 0
        /\ AgentDecision.reasoning decision = "Error occurred during evaluation"
        /\ AgentDecision.escalate decision
           = Some match a with CustomerSupport => true | _ => false end
        /\ exists error, console w' = console w ++ [EvaluationError a error])
    /\ (forall content,
          service (AgentLlm a) (prompt a email) (calls w)
            = Resolved (Text content) ->
          decision = parseDecision content /\ console w' = console w).
Proof.
  destruct (service (AgentLlm a) (prompt a email) (calls w))
    as [[content|]|error] eqn:E.
  - rewrite (evaluate_text _ _ _ _ _ E).
    eexists; eexists; split; [reflexivity|]; split.
    + intros [].
    + intros c Hc; inversion Hc; subst; now split.
  - rewrite (evaluate_complex _ _ _ _ E).
    eexists; eexists; split; [reflexivity|]; split.
    + intros _; simpl; repeat split; eauto.
    + discriminate.
  - rewrite (evaluate_rejected _ _ _ _ _ E).
    eexists; eexists; split; [reflexivity|]; split.
    + intros _; simpl; repeat split; eauto.
    + discriminate.
Qed.

Lemma evaluator_failure_contract_witness :
  callFails (Stub.down (AgentLlm CustomerSupport)
               (prompt CustomerSupport email_001) (calls emptyWorld))
  /\ exists decision w',
       evaluate Stub.down CustomerSupport email_001 emptyWorld
         = (Normal decision, w')
       /\ AgentDecision.shouldHandle decision = false
       /\ AgentDecision.confidence decision = 0
       /\ AgentDecision.escalate decision = Some true.
Proof.
  split; [exact I|].
  destruct (evaluator_failure_contract Stub.down CustomerSupport email_001
              emptyWorld) as (decision & w' & Hrun & Hfail & _).
  destruct (Hfail I) as (Hs & Hc & _ & He & _).
  exists decision, w'; repeat split; assumption.
Defined.

(** C5 as stated fails: a reply in prose carries none of the labelled
    fields, and the CustomerSupport evaluator answers with the parse
    defaults (confidence 50, no escalation), not with the degraded
    decision (confidence 0, escalation). *)
Lemma degraded_decision_counterexample :
  includes Stub.prose "SHOULD_HANDLE:" = false
  /\ includes Stub.prose "CONFIDENCE:" = false
  /\ includes Stub.prose "REASONING:" = false
  /\ includes Stub.prose "SUGGESTED_ACTIONS:" = false
  /\ includes Stub.prose "ESCALATE:" = false
  /\ value (evaluate Stub.proseService CustomerSupport email_001 emptyWorld)
     = Some (AgentDecision.mk false 50 "Analysis completed" (Some [])
                              (Some false))
  /\ value (evaluate Stub.proseService CustomerSupport email_001 emptyWorld)
     <> Some (degraded CustomerSupport).
Proof.
  repeat split; try (vm_compute; reflexivity).
  vm_compute; discriminate.
Qed.

Lemma decideState_names (email : Email.t)
    (spam customerSupport sales hr : AgentDecision.t)
    (e : string * AgentDecision.t) :
  In e (willingAgents
          (EmailTriageState.agentDecisions
             (decideState email spam customerSupport sales hr))) ->
  In (fst e) allowedAgents.
Proof.
  intros H; apply willingAgents_In in H; destruct H as [H _].
  unfold allowedAgents; simpl in H.
  destruct H as [<-|[<-|[<-|[<-|[]]]]]; simpl; tauto.
Qed.

Lemma evaluate_calls (service : Service) (a : Agent) (email : Email.t)
    (w w' : World) (decision : AgentDecision.t) :
  evaluate service a email w = (Normal decision, w') ->
  calls w' = calls w ++ [(AgentLlm a, prompt a email)].
Proof.
  intros H; destruct (evaluate_normal service a email w) as (d & u & Hd & Hc).
  rewrite H in Hd; now inversion Hd; subst.
Qed.

(** The conflict-resolution step on a non-empty list of willing agents: the
    one call it makes, and the agent of its result according to the reply
    to that call. *)
Lemma resolveConflict_run (service : Service) (state : EmailTriageState.t)
    (top : string * AgentDecision.t) (rest : list (string * AgentDecision.t))
    (w : World) :
  exists result w',
    resolveConflict service state (top :: rest) w = (Normal result, w')
    /\ calls w'
       = calls w
         ++ [(SupervisorLlm,
              conflictPrompt (EmailTriageState.email state)
                             (agentAnalysisOf (top :: rest)))]
    /\ match service SupervisorLlm
               (conflictPrompt (EmailTriageState.email state)
                               (agentAnalysisOf (top :: rest)))
               (calls w) with
       | Resolved (Text content) =>
           match search assignedAgentPattern content with
           | Some name => TriageResult.assignedAgent result = name
           | None => TriageResult.assignedAgent result = fst top
           end
       | _ => TriageResult.assignedAgent result = fst top
       end.
Proof.
  destruct top as [name decision].
  unfold resolveConflict, tryCatch, bind, invoke.
  destruct (service SupervisorLlm _ (calls w)) as [[content|]|error]; simpl.
  - destruct (search assignedAgentPattern content); simpl;
      eexists; eexists; repeat split.
  - eexists; eexists; repeat split.
  - eexists; eexists; repeat split.
Qed.

(** C6, as amended.  Every email gets a result.  When the conflict-resolution
    step does not run (no call of the supervisor's client is made for the
    email), the assigned agent is an evaluator name or a fallback sentinel.
    When it runs, its call is the last of the run, after the four
    evaluators', and the reply to that very call decides: if the reply is
    a text in which a word follows "ASSIGNED_AGENT: ", the assigned agent is
    that word, whatever it is; otherwise it is an evaluator name or a
    sentinel. *)
Theorem assigned_agent_range (service : Service) (email : Email.t) (w : World) :
  exists result w',
    triageEmail service email w = (Normal result, w')
    /\ (((forall request, ~ In (SupervisorLlm, request) (callsSince w w'))
         /\ In (TriageResult.assignedAgent result) allowedAgents)
        \/ exists request,
             callsSince w w'
             = evaluatorCalls email ++ [(SupervisorLlm, request)]
             /\ match service SupervisorLlm request
                        (calls w ++ evaluatorCalls email) with
                | Resolved (Text content) =>
                    match search assignedAgentPattern content with
                    | Some name =>
                        TriageResult.assignedAgent result = name
                        /\ all is_word name = true
                        /\ name <> EmptyString
                    | None =>
                        In (TriageResult.assignedAgent result) allowedAgents
                    end
                | _ => In (TriageResult.assignedAgent result) allowedAgents
                end).
Proof.
  destruct (triageEmail_cases service email w)
    as (spam & w1 & Hs
        & [[_ ->]|[_ (c & s & h & w2 & w3 & w4 & Hc & Hsa & Hh & ->)]]).
  - eexists; eexists; split; [reflexivity|]; left; split.
    + rewrite (callsSince_app _ _ _ (evaluate_calls _ _ _ _ _ _ Hs)).
      intros request [H|[]]; discriminate.
    + simpl; tauto.
  - apply evaluate_calls in Hs, Hc, Hsa, Hh.
    assert (Hfour : calls w4 = calls w ++ evaluatorCalls email)
      by (rewrite Hh, Hsa, Hc, Hs, <- !app_assoc; reflexivity).
    assert (Hquiet : forall request,
               ~ In (SupervisorLlm, request) (callsSince w w4)).
    { rewrite (callsSince_app _ _ _ Hfour).
      intros request [H|[H|[H|[H|[]]]]]; discriminate. }
    unfold makeRoutingDecision.
    pose proof (decideState_names email spam c s h) as Hnames.
    destruct (willingAgents _) as [|top [|second rest]].
    + eexists; eexists; split; [reflexivity|]; left; split;
        [exact Hquiet|simpl; tauto].
    + destruct top as [name decision].
      eexists; eexists; split; [reflexivity|]; left; split; [exact Hquiet|].
      apply (Hnames (name, decision)); now left.
    + destruct (resolveConflict_run service
                  (decideState email spam c s h) top (second :: rest) w4)
        as (result & w' & Hrun & Hcalls & Hreply).
      specialize (Hnames top (or_introl eq_refl)).
      destruct top as [name0 decision0]; cbv beta iota.
      rewrite Hrun; exists result, w'; split; [reflexivity|]; right.
      eexists; split.
      * rewrite Hfour, <- app_assoc in Hcalls.
        exact (callsSince_app _ _ _ Hcalls).
      * rewrite <- Hfour.
        destruct (service SupervisorLlm _ (calls w4)) as [[content|]|error];
          try (rewrite Hreply; exact Hnames).
        destruct (search assignedAgentPattern content) as [name|] eqn:Ea;
          [|rewrite Hreply; exact Hnames].
        split; [exact Hreply|].
        destruct (search_sound _ _ _ Ea) as (pre & suf & _ & Hm).
        unfold assignedAgentPattern in Hm.
        destruct (stripPrefix "ASSIGNED_AGENT: " suf); [|discriminate].
        now apply plus_all in Hm.
Qed.

(** On a concrete run: support and sales are willing, the supervisor's
    client is asked last and names "Legal", and the email is assigned to
    "Legal". *)
Lemma assigned_agent_range_witness :
  exists result w',
    triageEmail Stub.conflictLegal email_002 emptyWorld = (Normal result, w')
    /\ map fst (callsSince emptyWorld w')
       = [AgentLlm SpamFilter; AgentLlm CustomerSupport; AgentLlm Sales;
          AgentLlm HR; SupervisorLlm]
    /\ TriageResult.assignedAgent result = "Legal".
Proof.
  destruct (assigned_agent_range Stub.conflictLegal email_002 emptyWorld)
    as (result & w' & Hrun & [[Hquiet _]|(request & Hcalls & Hreply)]).
  - exfalso.
    assert (Hmade : exists request,
               In (SupervisorLlm, request) (callsSince emptyWorld w')).
    { vm_compute in Hrun; inversion Hrun; subst.
      eexists; vm_compute; do 4 right; left; reflexivity. }
    destruct Hmade as (request & Hin); exact (Hquiet request Hin).
  - exists result, w'; split; [exact Hrun|]; split.
    + rewrite Hcalls, map_app; reflexivity.
    + exact (proj1 Hreply).
Defined.

(** C6 as stated fails: with support and sales both willing and a
    conflict-resolution reply naming "Legal", the assigned agent is
    "Legal", which is neither an evaluator name nor a sentinel. *)
Lemma assigned_agent_counterexample :
  option_map TriageResult.assignedAgent
    (value (triageEmail Stub.conflictLegal email_002 emptyWorld))
  = Some "Legal"
  /\ ~ In "Legal" allowedAgents.
Proof.
  split; [vm_compute; reflexivity|].
  unfold allowedAgents; simpl; intuition discriminate.
Qed.



(** The parse is lenient where a label is present too: a blank list of
    actions runs on to the end of the reply, and a reasoning of blanks is
    kept as the empty string. *)
Example lenient_blank_fields :
  AgentDecision.suggestedActions
    (parseDecision ("SUGGESTED_ACTIONS: " ++ Stub.nl ++ "ESCALATE: false")%string)
  = Some ["ESCALATE: false"]
  /\ AgentDecision.reasoning (parseDecision "REASONING:  ") = EmptyString.
Proof. split; reflexivity. Qed.

(** C8.  Past the spam check, a SpamFilter decision with
    [shouldHandle = true] and a confidence from 51 to 70 is one of the four
    recorded decisions the Decide step ranges over and is in its willing
    set; when no specialist is willing, SpamFilter is the assigned agent,
    under the category "SpamFilter". *)
Theorem spam_filter_in_willing_set (service : Service) (email : Email.t)
    (w w1 w2 w3 w4 : World) (spam customerSupport sales hr : AgentDecision.t) :
  evaluate service SpamFilter email w = (Normal spam, w1) ->
  evaluate service CustomerSupport email w1 = (Normal customerSupport, w2) ->
  evaluate service Sales email w2 = (Normal sales, w3) ->
  evaluate service HR email w3 = (Normal hr, w4) ->
  AgentDecision.shouldHandle spam = true ->
  50 < AgentDecision.confidence spam <= 70 ->
  let state := decideState email spam customerSupport sales hr in
  triageEmail service email w = makeRoutingDecision service state w4
  /\ map fst (EmailTriageState.agentDecisions state)
     = ["SpamFilter"; "CustomerSupport"; "Sales"; "HR"]
  /\ In ("SpamFilter", spam)
        (willingAgents (EmailTriageState.agentDecisions state))
  /\ (isWilling ("CustomerSupport", customerSupport) = false ->
      isWilling ("Sales", sales) = false ->
      isWilling ("HR", hr) = false ->
      exists result,
        triageEmail service email w = (Normal result, w4)
        /\ TriageResult.assignedAgent result = "SpamFilter"
        /\ TriageResult.category result = "SpamFilter").
Proof.
  intros Hs Hc Hsa Hh Hshould [Hlo Hhi] state.
  assert (Hno : AgentDecision.shouldHandle spam
                && (AgentDecision.confidence spam >? 70) = false).
  { rewrite Hshould; simpl; apply gtb_below; lia. }
  assert (Hwilling : isWilling ("SpamFilter", spam) = true).
  { unfold isWilling; simpl; rewrite Hshould; simpl; apply gtb_above; lia. }
  pose proof (triageEmail_decide service email w w1 w2 w3 w4 _ _ _ _
                Hs Hc Hsa Hh Hno) as Hrun.
  split; [exact Hrun|]; split; [reflexivity|]; split.
  - apply willingAgents_In; split; [now left|exact Hwilling].
  - intros Uc Usa Uh; rewrite Hrun.
    unfold makeRoutingDecision.
    rewrite (willingAgents_single _ ("SpamFilter", spam)).
    + eexists; split; [reflexivity|]; split; reflexivity.
    + subst state; simpl; rewrite Hwilling, Uc, Usa, Uh; reflexivity.
Qed.

Lemma spam_filter_in_willing_set_witness :
  exists result w4,
    triageEmail Stub.mildSpam email_003 emptyWorld = (Normal result, w4)
    /\ TriageResult.assignedAgent result = "SpamFilter"
    /\ TriageResult.category result = "SpamFilter".
Proof.
  pose (spam := parseDecision
               ("SHOULD_HANDLE: true" ++ Stub.nl ++ "CONFIDENCE: 60" ++ Stub.nl
                ++ "REASONING: Stubbed analysis" ++ Stub.nl
                ++ "SUGGESTED_ACTIONS: Reply to sender" ++ Stub.nl
                ++ "ESCALATE: false")%string).
  pose (idle := parseDecision
               ("SHOULD_HANDLE: false" ++ Stub.nl ++ "CONFIDENCE: 20" ++ Stub.nl
                ++ "REASONING: Stubbed analysis" ++ Stub.nl
                ++ "SUGGESTED_ACTIONS: Reply to sender" ++ Stub.nl
                ++ "ESCALATE: false")%string).
  assert (Hrange : 50 < AgentDecision.confidence spam <= 70)
    by (split; [reflexivity|discriminate]).
  destruct (spam_filter_in_willing_set Stub.mildSpam email_003 emptyWorld
              _ _ _ _ spam idle idle idle
              (evaluate_text Stub.mildSpam SpamFilter email_003 _ _ eq_refl)
              (evaluate_text Stub.mildSpam CustomerSupport email_003 _ _ eq_refl)
              (evaluate_text Stub.mildSpam Sales email_003 _ _ eq_refl)
              (evaluate_text Stub.mildSpam HR email_003 _ _ eq_refl)
              eq_refl Hrange)
    as (_ & _ & _ & Hpick).
  destruct (Hpick eq_refl eq_refl eq_refl) as (result & H).
  exists result; eexists; exact H.
Defined.

(* ------------------------------------------------------------------ *)
(** *** The batch runner *)

Lemma forLoop_batchRun (triage : Email.t -> Js TriageResult.t)
    (suffix : list Email.t) :
  forall (prefix : list Email.t) (results : list TriageResult.t) (w : World),
  exists results' w',
    batchRun triage suffix w results' w'
    /\ Batch.forLoop triage (prefix ++ suffix) (length suffix) (length prefix)
         results w = (results ++ results', w').
Proof.
  induction suffix as [|email suffix IH]; intros prefix results w.
  - exists [], w; split; [constructor|]; simpl; now rewrite app_nil_r.
  - assert (Hnth : nth_error (prefix ++ email :: suffix) (length prefix)
                   = Some email).
    { rewrite nth_error_app2, Nat.sub_diag by lia; reflexivity. }
    simpl; rewrite Hnth; unfold Batch.processEmail.
    assert (Hshift : prefix ++ email :: suffix = (prefix ++ [email]) ++ suffix)
      by (rewrite <- app_assoc; reflexivity).
    assert (Hlen : S (length prefix) = length (prefix ++ [email]))
      by (rewrite length_app; simpl; lia).
    destruct (triage email w) as [[result|error] w1] eqn:Et.
    + destruct (IH (prefix ++ [email]) (results ++ [result]) w1)
        as (results' & w' & Hrun & Hloop).
      exists (result :: results'), w'; split.
      * now apply batchResult with (w1 := w1).
      * rewrite Hshift, Hlen, Hloop, <- app_assoc; reflexivity.
    + destruct (IH (prefix ++ [email]) results
                  (mkWorld (calls w1)
                     (console w1 ++ [ProcessingError (Email.id email) error])))
        as (results' & w' & Hrun & Hloop).
      exists results', w'; split.
      * now apply batchSkip with (error := error) (w1 := w1).
      * rewrite Hshift, Hlen, Hloop; reflexivity.
Qed.

Lemma processEmails_batchRun (triage : Email.t -> Js TriageResult.t)
    (emails : list Email.t) (w : World) :
  batchRun triage emails w (fst (Batch.processEmails triage emails w))
                           (snd (Batch.processEmails triage emails w)).
Proof.
  destruct (forLoop_batchRun triage emails [] [] w)
    as (results & w' & Hrun & Hloop).
  unfold Batch.processEmails; simpl in Hloop; rewrite Hloop; exact Hrun.
Qed.

(** C9.  The batch runner takes the emails one after the other in input
    order and appends the result of each email that is processed, in that
    order; when processing an email raises, the failure is caught, logged
    with the email's identifier, the email is left out of the results and
    the loop goes on with the remaining emails.  The entry point runs this
    loop with the supervisor's [triageEmail] once the credential is
    present. *)
Theorem batch_runner_in_order (triage : Email.t -> Js TriageResult.t)
    (service : Service) (emails : list Email.t) (w : World) :
  batchRun triage emails w (fst (Batch.processEmails triage emails w))
                           (snd (Batch.processEmails triage emails w))
  /\ (forall c key,
        exists results w',
          Batch.runBatch service (Some (String c key)) emails w
            = (Batch.Completed results, w')
          /\ batchRun (triageEmail service) emails w results w').
Proof.
  split; [apply processEmails_batchRun|].
  intros c key; unfold Batch.runBatch.
  pose proof (processEmails_batchRun (triageEmail service) emails w) as Hrun.
  destruct (Batch.processEmails (triageEmail service) emails w)
    as [results w'].
  now exists results, w'.
Qed.

(** The failure branch on a concrete run: the second of three emails
    raises, is logged with its identifier and is missing from the results;
    the third is still processed. *)
Example batch_runner_skip :
  let run := Batch.processEmails (Stub.faulty Stub.spam)
               [email_001; email_002; email_003] emptyWorld in
  map TriageResult.emailId (fst run) = ["email-001"; "email-003"]
  /\ console (snd run)
     = [ProcessingError "email-002"
          (TypeError "Cannot read properties of undefined")].
Proof. vm_compute; split; reflexivity. Qed.

(* ------------------------------------------------------------------ *)
(** *** Running twice *)

Section WorldIndependence.
Context {A B : Type}.

Lemma ret_independent (a : A) : worldIndependent (ret a).
Proof. intros w1 w2; reflexivity. Qed.

Lemma throw_independent (error : Error) : worldIndependent (@throw A error).
Proof. intros w1 w2; reflexivity. Qed.

Lemma bind_independent (m : Js A) (k : A -> Js B) :
  worldIndependent m -> (forall a, worldIndependent (k a)) ->
  worldIndependent (bind m k).
Proof.
  intros Hm Hk w1 w2; unfold bind; specialize (Hm w1 w2).
  destruct (m w1) as [[a1|e1] w1'], (m w2) as [[a2|e2] w2'];
    simpl in Hm; inversion Hm; subst; [apply Hk|reflexivity].
Qed.

Lemma tryCatch_independent (body : Js A) (handler : Error -> Js A) :
  worldIndependent body -> (forall e, worldIndependent (handler e)) ->
  worldIndependent (tryCatch body handler).
Proof.
  intros Hm Hk w1 w2; unfold tryCatch; specialize (Hm w1 w2).
  destruct (body w1) as [[a1|e1] w1'], (body w2) as [[a2|e2] w2'];
    simpl in Hm; inversion Hm; subst; [reflexivity|apply Hk].
Qed.

Lemma promiseAll3_independent (a b c : Js A) :
  worldIndependent a -> worldIndependent b -> worldIndependent c ->
  worldIndependent (promiseAll3 a b c).
Proof.
  intros Ha Hb Hc w1 w2; unfold promiseAll3; specialize (Ha w1 w2).
  destruct (a w1) as [ra1 u1], (a w2) as [ra2 u2]; simpl in Ha; subst ra2.
  specialize (Hb u1 u2).
  destruct (b u1) as [rb1 v1], (b u2) as [rb2 v2]; simpl in Hb; subst rb2.
  specialize (Hc v1 v2).
  destruct (c v1) as [rc1 x1], (c v2) as [rc2 x2]; simpl in Hc; subst rc2.
  destruct ra1, rb1, rc1; reflexivity.
Qed.
End WorldIndependence.

Lemma consoleError_independent (line : ConsoleError) :
  worldIndependent (consoleError line).
Proof. intros w1 w2; reflexivity. Qed.

Section DeterministicService.
Variable service : Service.
Hypothesis stubbed : deterministicService service.

Lemma invoke_independent (llm : Llm) (request : string) :
  worldIndependent (invoke service llm request).
Proof.
  intros w1 w2; unfold invoke.
  rewrite (stubbed llm request (calls w1) (calls w2)).
  destruct (service llm request (calls w2)); reflexivity.
Qed.

Lemma evaluate_independent (a : Agent) (email : Email.t) :
  worldIndependent (evaluate service a email).
Proof.
  unfold evaluate; apply tryCatch_independent.
  - apply bind_independent; [apply invoke_independent|].
    intros [content|]; [apply ret_independent|apply throw_independent].
  - intros e; apply bind_independent; [apply consoleError_independent|].
    intros _; apply ret_independent.
Qed.

Lemma firstAgent_independent (willing : list (string * AgentDecision.t)) :
  worldIndependent (firstAgent willing).
Proof.
  destruct willing as [|[name d] rest];
    [apply throw_independent|apply ret_independent].
Qed.

Lemma resolveConflict_independent (state : EmailTriageState.t)
    (willing : list (string * AgentDecision.t)) :
  worldIndependent (resolveConflict service state willing).
Proof.
  unfold resolveConflict; apply tryCatch_independent.
  - apply bind_independent; [apply invoke_independent|].
    intros [content|]; simpl; [|apply throw_independent].
    apply bind_independent; [|intros name; apply ret_independent].
    destruct (search assignedAgentPattern content);
      [apply ret_independent|apply firstAgent_independent].
  - intros e; apply bind_independent; [apply consoleError_independent|].
    intros _; apply bind_independent; [apply firstAgent_independent|].
    intros name; apply ret_independent.
Qed.

Lemma makeRoutingDecision_independent (state : EmailTriageState.t) :
  worldIndependent (makeRoutingDecision service state).
Proof.
  unfold makeRoutingDecision.
  destruct (willingAgents _) as [|[name d] [|second rest]].
  - apply ret_independent.
  - apply ret_independent.
  - apply resolveConflict_independent.
Qed.

Lemma triageEmail_independent (email : Email.t) :
  worldIndependent (triageEmail service email).
Proof.
  unfold triageEmail; apply bind_independent; [apply evaluate_independent|].
  intros spam.
  destruct (AgentDecision.shouldHandle spam
            && (AgentDecision.confidence spam >? 70));
    [apply ret_independent|].
  apply bind_independent.
  - apply promiseAll3_independent; apply evaluate_independent.
  - intros [[c s] h]; apply makeRoutingDecision_independent.
Qed.
End DeterministicService.

Lemma forLoop_independent (triage : Email.t -> Js TriageResult.t)
    (emails : list Email.t) :
  (forall email, worldIndependent (triage email)) ->
  forall fuel i results w1 w2,
    fst (Batch.forLoop triage emails fuel i results w1)
    = fst (Batch.forLoop triage emails fuel i results w2).
Proof.
  intros Htriage; induction fuel as [|fuel IH]; intros i results w1 w2; simpl;
    [reflexivity|].
  destruct (nth_error emails i) as [email|]; [|reflexivity].
  unfold Batch.processEmail; specialize (Htriage email w1 w2).
  destruct (triage email w1) as [[r1|e1] u1], (triage email w2) as [[r2|e2] u2];
    simpl in Htriage; inversion Htriage; subst; apply IH.
Qed.

(** C10, as amended.  With every external call stubbed, the evaluators' and
    the conflict-resolution call alike, the batch entry point returns the
    same results from whatever world it starts in: a second run over the
    same emails repeats the first. *)
Theorem rerun_same_results (service : Service) (apiKey : option string)
    (emails : list Email.t) (w1 w2 : World) :
  deterministicService service ->
  fst (Batch.runBatch service apiKey emails w1)
  = fst (Batch.runBatch service apiKey emails w2).
Proof.
  intros Hstub; unfold Batch.runBatch.
  destruct apiKey as [[|c key]|]; try reflexivity.
  pose proof (forLoop_independent (triageEmail service) emails
                (triageEmail_independent service Hstub)
                (length emails) 0%nat [] w1 w2) as Hloop.
  unfold Batch.processEmails.
  destruct (Batch.forLoop _ emails _ _ _ w1) as [r1 u1],
           (Batch.forLoop _ emails _ _ _ w2) as [r2 u2].
  simpl in *; now subst.
Qed.

Lemma rerun_same_results_witness :
  deterministicService Stub.conflictLegal
  /\ fst (Batch.main Stub.conflictLegal (Some "sk-test") emptyWorld)
     = fst (Batch.main Stub.conflictLegal (Some "sk-test")
              (snd (Batch.main Stub.conflictLegal (Some "sk-test") emptyWorld))).
Proof.
  assert (Hstub : deterministicService Stub.conflictLegal)
    by (intros [[]|] request h1 h2; reflexivity).
  split; [exact Hstub|].
  exact (rerun_same_results Stub.conflictLegal (Some "sk-test") sampleEmails
           _ _ Hstub).
Defined.

(** C10 as stated fails: the evaluators are stubbed, but the supervisor's own
    call is not among them; when it answers differently the second time,
    two runs over the same emails differ. *)
Lemma rerun_counterexample :
  deterministicEvaluators Stub.conflictFlip
  /\ fst (Batch.main Stub.conflictFlip (Some "sk-test") emptyWorld)
     <> fst (Batch.main Stub.conflictFlip (Some "sk-test")
               (snd (Batch.main Stub.conflictFlip (Some "sk-test") emptyWorld))).
Proof.
  split.
  - intros [] request h1 h2; reflexivity.
  - vm_compute; discriminate.
Qed.

(* ================================================================== *)
(** ** Further properties of the code *)
(* ================================================================== *)

(* ------------------------------------------------------------------ *)
(** *** The order of the willing agents *)

Lemma insertBy_perm {A : Type} (cmp : A -> A -> Z) (x : A) (l : list A) :
  Permutation (insertBy cmp x l) (x :: l).
Proof.
  induction l as [|y l IH]; simpl; [reflexivity|].
  destruct (cmp x y <=? 0); [reflexivity|].
  rewrite IH; apply perm_swap.
Qed.

Lemma sortBy_perm {A : Type} (cmp : A -> A -> Z) (l : list A) :
  Permutation (sortBy cmp l) l.
Proof.
  induction l as [|x l IH]; simpl; [reflexivity|].
  rewrite insertBy_perm; now constructor.
Qed.

Lemma insertBy_sorted (x : string * AgentDecision.t)
    (l : list (string * AgentDecision.t)) :
  StronglySorted (fun a b => confidenceOf b <= confidenceOf a) l ->
  StronglySorted (fun a b => confidenceOf b <= confidenceOf a)
                 (insertBy byConfidence x l).
Proof.
  induction 1 as [|y l Hs IH Hy]; simpl.
  - repeat constructor.
  - unfold byConfidence at 1; fold (confidenceOf y) (confidenceOf x).
    destruct (confidenceOf y - confidenceOf x <=? 0) eqn:E.
    + apply Z.leb_le in E; constructor; [now constructor|].
      constructor; [lia|].
      rewrite Forall_forall in *; intros e He; specialize (Hy e He); lia.
    + apply Z.leb_gt in E; constructor; [exact IH|].
      rewrite Forall_forall in *; intros e He.
      apply insertBy_In in He; destruct He as [->|He]; [lia|now apply Hy].
Qed.

(** X1.  The willing agents are exactly the recorded decisions that pass the
    filter, each once, in descending order of confidence. *)
Theorem willingAgents_sorted (decisions : Decisions) :
  Permutation (willingAgents decisions) (filter isWilling decisions)
  /\ StronglySorted (fun a b => confidenceOf b <= confidenceOf a)
                    (willingAgents decisions)
  /\ Forall (fun e => AgentDecision.shouldHandle (snd e) = true
                      /\ 50 < confidenceOf e)
            (willingAgents decisions).
Proof.
  unfold willingAgents; split; [apply sortBy_perm|]; split.
  - induction (filter isWilling decisions) as [|x l IH]; simpl;
      [constructor|now apply insertBy_sorted].
  - apply Forall_forall; intros e He.
    apply sortBy_In, filter_In in He; destruct He as [_ He].
    unfold isWilling in He; apply andb_true_iff in He; destruct He as [Hs Hc].
    split; [exact Hs|]. rewrite Z.gtb_ltb in Hc; now apply Z.ltb_lt.
Qed.

Lemma sortBy_head_first (l : list (string * AgentDecision.t))
    (top : string * AgentDecision.t) (rest : list (string * AgentDecision.t)) :
  sortBy byConfidence l = top :: rest ->
  exists before after,
    l = before ++ top :: after
    /\ (forall e, In e before -> confidenceOf e < confidenceOf top)
    /\ (forall e, In e after -> confidenceOf e <= confidenceOf top).
Proof.
  revert top rest; induction l as [|x l IH]; intros top rest H;
    [discriminate|].
  simpl in H; destruct (sortBy byConfidence l) as [|y s] eqn:Es.
  - assert (l = []) as ->.
    { apply length_zero_iff_nil.
      now rewrite <- (sortBy_length byConfidence), Es. }
    simpl in H; inversion H; subst.
    exists [], []; repeat split; intros e [].
  - destruct (IH y s eq_refl) as (before & after & -> & Hb & Ha).
    simpl in H; unfold byConfidence at 1 in H.
    fold (confidenceOf y) (confidenceOf x) in H.
    destruct (confidenceOf y - confidenceOf x <=? 0) eqn:E;
      inversion H; subst.
    + apply Z.leb_le in E.
      exists [], (before ++ y :: after); repeat split; [intros e []|].
      intros e He; apply in_app_or in He; destruct He as [He|[<-|He]];
        [specialize (Hb e He)|..|specialize (Ha e He)]; lia.
    + apply Z.leb_gt in E.
      exists (x :: before), after; repeat split; [|exact Ha].
      intros e [<-|He]; [lia|now apply Hb].
Qed.

(** X2.  Ties are broken by the order of recording: the first of the willing
    agents is the earliest recorded decision of highest confidence, every
    decision recorded before it being strictly less confident.  With the
    decisions recorded as SpamFilter, CustomerSupport, Sales, HR, that is the
    order of preference on equal confidence. *)
Theorem willingAgents_tie_break (decisions : Decisions)
    (top : string * AgentDecision.t) (rest : list (string * AgentDecision.t)) :
  willingAgents decisions = top :: rest ->
  exists before after,
    filter isWilling decisions = before ++ top :: after
    /\ (forall e, In e before -> confidenceOf e < confidenceOf top)
    /\ (forall e, In e after -> confidenceOf e <= confidenceOf top).
Proof. apply sortBy_head_first. Qed.

Lemma willingAgents_tie_break_witness :
  let idle := AgentDecision.mk false 20 "Not mine" (Some []) (Some false) in
  let keen := AgentDecision.mk true 85 "Mine" (Some []) (Some false) in
  let decisions :=
    [("SpamFilter", idle); ("CustomerSupport", keen); ("Sales", keen);
     ("HR", keen)] in
  willingAgents decisions
  = [("CustomerSupport", keen); ("Sales", keen); ("HR", keen)]
  /\ exists before after,
       filter isWilling decisions
       = before ++ ("CustomerSupport", keen) :: after
       /\ (forall e, In e before ->
                     confidenceOf e < confidenceOf ("CustomerSupport", keen))
       /\ (forall e, In e after ->
                     confidenceOf e <= confidenceOf ("CustomerSupport", keen)).
Proof.
  intros idle keen decisions.
  split; [reflexivity|].
  exact (willingAgents_tie_break decisions ("CustomerSupport", keen)
           [("Sales", keen); ("HR", keen)] eq_refl).
Defined.

(* ------------------------------------------------------------------ *)
(** *** The priority ladder *)

(** X3.  The ladder gives urgent exactly on escalation, and between two
    decisions with the same escalation flag the more confident one never
    gets the lower priority. *)
Theorem determinePriority_monotone (d1 d2 : AgentDecision.t) :
  AgentDecision.escalate d1 = AgentDecision.escalate d2 ->
  AgentDecision.confidence d1 <= AgentDecision.confidence d2 ->
  priorityRank (determinePriority d1) <= priorityRank (determinePriority d2)
  /\ (determinePriority d1 = urgent <->
      AgentDecision.escalate d1 = Some true).
Proof.
  intros He Hc; unfold determinePriority, truthy; rewrite <- He.
  destruct (AgentDecision.escalate d1) as [[|]|];
    (split; [|split; intros H; try reflexivity; try discriminate]);
    try (simpl; lia);
    try (destruct (AgentDecision.confidence d1 >? 90) eqn:E1,
                  (AgentDecision.confidence d1 >? 70) eqn:E2;
         discriminate);
    rewrite !Z.gtb_ltb;
    destruct (90 <? AgentDecision.confidence d1) eqn:A1,
             (70 <? AgentDecision.confidence d1) eqn:A2,
             (90 <? AgentDecision.confidence d2) eqn:B1,
             (70 <? AgentDecision.confidence d2) eqn:B2;
    simpl; try lia;
    repeat match goal with
           | H : (_ <? _) = true |- _ => apply Z.ltb_lt in H
           | H : (_ <? _) = false |- _ => apply Z.ltb_ge in H
           end; lia.
Qed.

Lemma determinePriority_monotone_witness :
  let calm := AgentDecision.mk true 60 "Routine" (Some []) (Some false) in
  let sure := AgentDecision.mk true 95 "Clear" (Some []) (Some false) in
  priorityRank (determinePriority calm) <= priorityRank (determinePriority sure)
  /\ (determinePriority calm = urgent <->
      AgentDecision.escalate calm = Some true).
Proof.
  intros calm sure.
  apply (determinePriority_monotone calm sure); [reflexivity|].
  simpl; lia.
Defined.

(* ------------------------------------------------------------------ *)
(** *** What the parse of a reply guarantees *)

Lemma trimStart_head (s : string) :
  trimStart s = EmptyString
  \/ exists c r, trimStart s = String c r /\ is_white_space c = false.
Proof.
  induction s as [|c s IH]; simpl; [now left|].
  destruct (is_white_space c) eqn:E; [exact IH|right; now exists c, s].
Qed.

Lemma trimEnd_idempotent (s : string) : trimEnd (trimEnd s) = trimEnd s.
Proof.
  induction s as [|c s IH]; simpl; [reflexivity|].
  destruct (trimEnd s) as [|c' u] eqn:E.
  - destruct (is_white_space c) eqn:Ec; simpl; [reflexivity|now rewrite Ec].
  - change (trimEnd (String c (String c' u))) with
      (match trimEnd (String c' u) with
       | EmptyString => if is_white_space c then EmptyString
                        else String c EmptyString
       | r => String c r
       end).
    now rewrite IH.
Qed.

Lemma trimEnd_keeps_head (c : ascii) (r : string) :
  is_white_space c = false -> exists r', trimEnd (String c r) = String c r'.
Proof.
  intros Hc; simpl; destruct (trimEnd r) as [|c' u]; rewrite ?Hc; eauto.
Qed.

Lemma trim_idempotent (s : string) : trim (trim s) = trim s.
Proof.
  unfold trim.
  destruct (trimStart_head s) as [->|(c & r & -> & Hc)]; [reflexivity|].
  destruct (trimEnd_keeps_head c r Hc) as (r' & Hr); rewrite Hr.
  simpl trimStart; rewrite Hc, <- Hr; apply trimEnd_idempotent.
Qed.

Lemma all_trimStart (p : ascii -> bool) (s : string) :
  all p s = true -> all p (trimStart s) = true.
Proof.
  induction s as [|c s IH]; simpl; [reflexivity|]; intros H.
  apply andb_true_iff in H; destruct H as [Hc Hs].
  destruct (is_white_space c); [now apply IH|simpl; now rewrite Hc, Hs].
Qed.

Lemma all_trimEnd (p : ascii -> bool) (s : string) :
  all p s = true -> all p (trimEnd s) = true.
Proof.
  induction s as [|c s IH]; simpl; [reflexivity|]; intros H.
  apply andb_true_iff in H; destruct H as [Hc Hs]; specialize (IH Hs).
  destruct (trimEnd s) as [|c' u].
  - destruct (is_white_space c); simpl; [reflexivity|now rewrite Hc].
  - simpl in *; now rewrite Hc, IH.
Qed.

Lemma all_trim (p : ascii -> bool) (s : string) :
  all p s = true -> all p (trim s) = true.
Proof. intros H; now apply all_trimEnd, all_trimStart. Qed.

Lemma splitLines_single_line (s : string) :
  Forall (fun l => all (fun c => negb (Ascii.eqb c LF)) l = true)
         (splitLines s).
Proof.
  induction s as [|c s IH]; simpl; [now repeat constructor|].
  destruct (Ascii.eqb c LF) eqn:E; [now constructor|].
  destruct (splitLines s) as [|h t]; [repeat constructor; simpl; now rewrite E|].
  inversion IH; subst; constructor; [simpl; now rewrite E|assumption].
Qed.

(** X4.  The text fields of a parsed decision are tidy, whatever the reply:
    the reasoning has no surrounding white space and no line break, and
    every suggested action is a non-empty single line without surrounding
    white space. *)
Theorem parsed_text_is_tidy (content : string) :
  trim (AgentDecision.reasoning (parseDecision content))
  = AgentDecision.reasoning (parseDecision content)
  /\ all (fun c => negb (is_line_terminator c))
         (AgentDecision.reasoning (parseDecision content)) = true
  /\ exists actions,
       AgentDecision.suggestedActions (parseDecision content) = Some actions
       /\ Forall (fun action =>
                    action <> EmptyString
                    /\ trim action = action
                    /\ all (fun c => negb (Ascii.eqb c LF)) action = true)
                 actions.
Proof.
  unfold parseDecision; simpl.
  split; [|split].
  - destruct (search reasoningPattern content);
      [apply trim_idempotent|reflexivity].
  - destruct (search reasoningPattern content) as [cap|] eqn:E;
      [|reflexivity].
    destruct (search_sound _ _ _ E) as (pre & suf & _ & Hm).
    destruct (reasoningPattern_sound _ _ Hm) as (post & _ & _ & Hall & _).
    now apply all_trim.
  - eexists; split; [reflexivity|].
    destruct (search actionsPattern content) as [cap|]; [|constructor].
    apply Forall_forall; intros action Ha.
    apply filter_In in Ha; destruct Ha as [Ha Hlen].
    apply in_map_iff in Ha; destruct Ha as (line & <- & Hline).
    split; [|split].
    + intros Hempty; rewrite Hempty in Hlen; discriminate.
    + apply trim_idempotent.
    + apply all_trim.
      pose proof (splitLines_single_line cap) as Hs.
      rewrite Forall_forall in Hs; now apply Hs.
Qed.

Lemma is_digit_value (c : ascii) : is_digit c = true -> 0 <= digitValue c <= 9.
Proof.
  unfold is_digit, digitValue; intros H.
  apply andb_true_iff in H; destruct H as [H1 H2].
  apply Nat.leb_le in H1, H2; lia.
Qed.

Lemma parseDigits_nonneg (s : string) :
  forall acc, all is_digit s = true -> 0 <= acc -> 0 <= parseDigits acc s.
Proof.
  induction s as [|c s IH]; cbn [all parseDigits]; intros acc H Hacc;
    [exact Hacc|].
  apply andb_true_iff in H; destruct H as [Hc Hs].
  apply IH; [exact Hs|]. pose proof (is_digit_value c Hc); lia.
Qed.

(** X5.  The confidence an evaluator returns is never negative, whatever
    the service answers: a parsed confidence is read from decimal digits
    only, the default is 50 and the degraded decision has 0. *)
Theorem confidence_never_negative (service : Service) (a : Agent)
    (email : Email.t) (w : World) :
  exists decision w',
    evaluate service a email w = (Normal decision, w')
    /\ 0 <= AgentDecision.confidence decision.
Proof.
  destruct (service (AgentLlm a) (prompt a email) (calls w))
    as [[content|]|error] eqn:E.
  - rewrite (evaluate_text _ _ _ _ _ E); eexists; eexists;
      split; [reflexivity|].
    unfold parseDecision; simpl.
    destruct (search confidencePattern content) as [cap|] eqn:Ec; [|lia].
    destruct (search_sound _ _ _ Ec) as (pre & suf & _ & Hm).
    unfold confidencePattern in Hm.
    destruct (stripPrefix "CONFIDENCE: " suf); [|discriminate].
    apply plus_all in Hm; destruct Hm as [Hall _].
    apply parseDigits_nonneg; [exact Hall|lia].
  - rewrite (evaluate_complex _ _ _ _ E); eexists; eexists;
      split; [reflexivity|simpl; lia].
  - rewrite (evaluate_rejected _ _ _ _ _ E); eexists; eexists;
      split; [reflexivity|simpl; lia].
Qed.

Lemma escalatePattern_true (s cap : string) :
  escalatePattern s = Some cap -> String.eqb cap "true" = true ->
  exists post, s = ("ESCALATE: true" ++ post)%string.
Proof.
  unfold escalatePattern.
  destruct (stripPrefix "ESCALATE: " s) as [r|] eqn:E; [|discriminate].
  apply stripPrefix_sound in E; subst s.
  destruct (startsWith r "true") eqn:Ht.
  - apply startsWith_sound in Ht; destruct Ht as [post ->].
    intros _ _; now exists post.
  - destruct (startsWith r "false"); [|discriminate].
    intros H; inversion H; subst; discriminate.
Qed.

(** X6.  A parsed decision escalates only when the reply contains the
    literal "ESCALATE: true". *)
Theorem escalation_needs_literal (content : string) :
  AgentDecision.escalate (parseDecision content) = Some true ->
  exists pre post, content = (pre ++ "ESCALATE: true" ++ post)%string.
Proof.
  unfold parseDecision; simpl.
  destruct (search escalatePattern content) as [cap|] eqn:E; [|discriminate].
  intros H; assert (Hcap : String.eqb cap "true" = true) by congruence.
  destruct (search_sound _ _ _ E) as (pre & suf & -> & Hm).
  destruct (escalatePattern_true _ _ Hm Hcap) as (post & ->).
  now exists pre, post.
Qed.

Lemma escalation_needs_literal_witness :
  exists pre post,
    ("REASONING: Outage" ++ Stub.nl ++ "ESCALATE: true (at once)")%string
    = (pre ++ "ESCALATE: true" ++ post)%string.
Proof.
  exact (escalation_needs_literal
           ("REASONING: Outage" ++ Stub.nl ++ "ESCALATE: true (at once)")%string
           eq_refl).
Defined.

(* ------------------------------------------------------------------ *)
(** *** Replies in the requested format *)

Lemma search_here {A : Type} (m : string -> option A) (s : string) (v : A) :
  m s = Some v -> search m s = Some v.
Proof. intros H; destruct s; simpl; now rewrite H. Qed.

Lemma search_next {A : Type} (m : string -> option A) (c : ascii) (s : string) :
  m (String c s) = None -> search m (String c s) = search m s.
Proof. intros H; simpl; now rewrite H. Qed.

Lemma plain_cons (c : ascii) (t : string) :
  plain (String c t) = true ->
  Ascii.eqb c ":"%char = false /\ Ascii.eqb c LF = false /\ plain t = true.
Proof.
  unfold plain; simpl; intros H.
  apply andb_true_iff in H; destruct H as [Hc Ht].
  apply andb_true_iff in Hc; destruct Hc as [H1 H2].
  apply negb_true_iff in H1, H2; repeat split; auto.
  destruct (Ascii.eqb c LF) eqn:E; [|reflexivity].
  apply Ascii.eqb_eq in E; subst c; discriminate.
Qed.

(** A label does not start inside a plain text that a line feed follows. *)
Lemma stripPrefix_in_plain (text : string) :
  forall label rest,
    plain text = true -> colonFirst label = true ->
    stripPrefix label (text ++ String LF rest)%string = None.
Proof.
  induction text as [|c t IH]; intros label rest Hp Hl.
  - destruct label as [|l label']; [discriminate|]; simpl in *.
    destruct (Ascii.eqb l LF) eqn:E; [|reflexivity].
    apply Ascii.eqb_eq in E; subst l; discriminate.
  - destruct (plain_cons _ _ Hp) as (Hc & Hlf & Ht).
    destruct label as [|l label']; [discriminate|]; simpl in *.
    destruct (Ascii.eqb l c) eqn:E; [|reflexivity].
    apply Ascii.eqb_eq in E; subst l; rewrite Hc, Hlf in Hl.
    now apply IH.
Qed.

Lemma search_skip_plain {A : Type} (m : string -> option A) (label : string) :
  (forall s, stripPrefix label s = None -> m s = None) ->
  colonFirst label = true ->
  forall text rest,
    plain text = true ->
    search m (text ++ String LF rest)%string = search m (String LF rest).
Proof.
  intros Hm Hl text; induction text as [|c t IH]; intros rest Hp;
    [reflexivity|].
  change ((String c t ++ String LF rest)%string)
    with (String c (t ++ String LF rest)%string).
  rewrite search_next.
  - apply IH; now destruct (plain_cons _ _ Hp) as (_ & _ & Ht).
  - apply Hm; exact (stripPrefix_in_plain (String c t) label rest Hp Hl).
Qed.

Lemma is_digit_plain (c : ascii) :
  is_digit c = true ->
  negb (Ascii.eqb c ":"%char) && negb (is_line_terminator c) = true.
Proof.
  destruct c as [[] [] [] [] [] [] [] []]; intros H; try discriminate H;
    reflexivity.
Qed.

Lemma is_word_plain (c : ascii) :
  is_word c = true ->
  negb (Ascii.eqb c ":"%char) && negb (is_line_terminator c) = true.
Proof.
  destruct c as [[] [] [] [] [] [] [] []]; intros H; try discriminate H;
    reflexivity.
Qed.

Lemma all_implies (p q : ascii -> bool) (s : string) :
  (forall c, p c = true -> q c = true) -> all p s = true -> all q s = true.
Proof.
  intros Hpq; induction s as [|c s IH]; simpl; [reflexivity|]; intros H.
  apply andb_true_iff in H; destruct H as [Hc Hs].
  now rewrite (Hpq c Hc), IH.
Qed.

Lemma digits_plain (s : string) : all is_digit s = true -> plain s = true.
Proof. apply all_implies, is_digit_plain. Qed.

Lemma word_plain (s : string) : all is_word s = true -> plain s = true.
Proof. apply all_implies, is_word_plain. Qed.

Lemma span_app (p : ascii -> bool) (t : string) (c : ascii) (rest : string) :
  all p t = true -> p c = false -> span p (t ++ String c rest)%string = t.
Proof.
  intros Ht Hc; induction t as [|d t IH]; simpl in *; [now rewrite Hc|].
  apply andb_true_iff in Ht; destruct Ht as [Hd Ht].
  now rewrite Hd, IH.
Qed.

Lemma plus_app (p : ascii -> bool) (t : string) (c : ascii) (rest : string) :
  all p t = true -> t <> EmptyString -> p c = false ->
  plus p (t ++ String c rest)%string = Some t.
Proof.
  intros Ht Hne Hc; unfold plus; rewrite span_app by assumption.
  destruct t; congruence.
Qed.

Lemma lazyPlus_app (dot : ascii -> bool) (stop : string -> bool)
    (t rest : string) :
  (forall c x, Ascii.eqb c LF = false -> stop (String c x) = false) ->
  all dot t = true -> plain t = true -> t <> EmptyString ->
  stop rest = true ->
  lazyPlus dot stop (t ++ rest)%string = Some t.
Proof.
  intros Hstop Hdot Hp Hne Hrest; induction t as [|c t IH]; [congruence|].
  simpl in Hdot; apply andb_true_iff in Hdot; destruct Hdot as [Hc Ht].
  destruct (plain_cons _ _ Hp) as (_ & _ & Hpt).
  simpl; rewrite Hc.
  destruct t as [|c' t'].
  - simpl; now rewrite Hrest.
  - destruct (plain_cons _ _ Hpt) as (_ & Hlf & _).
    change ((String c' t' ++ rest)%string) with (String c' (t' ++ rest)%string).
    rewrite (Hstop c' _ Hlf).
    change (String c' (t' ++ rest)%string) with ((String c' t' ++ rest)%string).
    rewrite IH; [reflexivity|assumption|assumption|discriminate].
Qed.

Lemma atLineEnd_inside (c : ascii) (x : string) :
  Ascii.eqb c LF = false -> atLineEnd (String c x) = false.
Proof.
  intros H; unfold atLineEnd, startsWith; cbn [isEmpty stripPrefix orb].
  rewrite Ascii.eqb_sym, H; reflexivity.
Qed.

Lemma atEscalateOrEnd_inside (c : ascii) (x : string) :
  Ascii.eqb c LF = false -> atEscalateOrEnd (String c x) = false.
Proof.
  intros H; unfold atEscalateOrEnd, startsWith; cbn [isEmpty stripPrefix orb].
  rewrite Ascii.eqb_sym, H; reflexivity.
Qed.

Lemma plain_not_terminated (s : string) :
  plain s = true -> all (fun c => negb (is_line_terminator c)) s = true.
Proof.
  apply all_implies; intros c H; apply andb_true_iff in H; tauto.
Qed.

Lemma splitLines_plain (s : string) : plain s = true -> splitLines s = [s].
Proof.
  induction s as [|c s IH]; intros Hp; [reflexivity|].
  destruct (plain_cons _ _ Hp) as (_ & Hlf & Hs).
  simpl; now rewrite Hlf, (IH Hs).
Qed.

Lemma includes_search (needle s : string) :
  includes s needle
  = match search (fun t => if startsWith t needle then Some tt else None) s with
    | Some _ => true
    | None => false
    end.
Proof.
  induction s as [|c s IH]; simpl.
  - destruct (startsWith EmptyString needle); reflexivity.
  - destruct (startsWith (String c s) needle); [reflexivity|exact IH].
Qed.

(** The patterns fail where their label does not start. *)
Lemma confidencePattern_label (s : string) :
  stripPrefix "CONFIDENCE: " s = None -> confidencePattern s = None.
Proof. unfold confidencePattern; now intros ->. Qed.

Lemma reasoningPattern_label (s : string) :
  stripPrefix "REASONING: " s = None -> reasoningPattern s = None.
Proof. unfold reasoningPattern; now intros ->. Qed.

Lemma escalatePattern_label (s : string) :
  stripPrefix "ESCALATE: " s = None -> escalatePattern s = None.
Proof. unfold escalatePattern; now intros ->. Qed.

Lemma actionsPattern_label (s : string) :
  stripPrefix "SUGGESTED_ACTIONS: " s = None -> actionsPattern s = None.
Proof. unfold actionsPattern; now intros ->. Qed.

Lemma shouldHandle_label (s : string) :
  stripPrefix "SHOULD_HANDLE: true" s = None ->
  (if startsWith s "SHOULD_HANDLE: true" then Some tt else None) = None.
Proof. unfold startsWith; now intros ->. Qed.

Lemma priorityPattern_label (s : string) :
  stripPrefix "PRIORITY: " s = None -> priorityPattern s = None.
Proof. unfold priorityPattern; now intros ->. Qed.

(** Steps a search over the characters of a literal, then over a plain
    text, as far as the pattern fails there. *)
Ltac skip_literal := repeat (rewrite search_next by reflexivity).

Ltac skip_text fact :=
  rewrite (search_skip_plain _ _ fact eq_refl) by assumption.

(** The parse of a reply in the requested format, field by field. *)
Lemma formatReply_parse (shouldHandle escalate : bool)
    (digits reasoning actions : string) :
  all is_digit digits = true -> digits <> EmptyString ->
  plain reasoning = true -> reasoning <> EmptyString ->
  trim reasoning = reasoning ->
  plain actions = true -> actions <> EmptyString ->
  trim actions = actions ->
  parseDecision (formatReply shouldHandle digits reasoning actions escalate)
  = AgentDecision.mk shouldHandle (parseInt digits) reasoning
                     (Some [actions]) (Some escalate).
Proof.
  intros Hdigits Hd0 Hr Hr0 Hrt Ha Ha0 Hat.
  pose proof (digits_plain _ Hdigits) as Hdp.
  assert (Hshould : includes
                      (formatReply shouldHandle digits reasoning actions escalate)
                      "SHOULD_HANDLE: true" = shouldHandle).
  { destruct shouldHandle.
    - exact (includes_complete EmptyString "SHOULD_HANDLE: true" _).
    - rewrite includes_search; unfold formatReply; cbn [append showBool].
      skip_literal; skip_text shouldHandle_label.
      skip_literal; skip_text shouldHandle_label.
      skip_literal; skip_text shouldHandle_label.
      destruct escalate; reflexivity. }
  assert (Hconf : search confidencePattern
                    (formatReply shouldHandle digits reasoning actions escalate)
                  = Some digits).
  { unfold formatReply; destruct shouldHandle; cbn [append showBool];
      skip_literal; apply search_here; unfold confidencePattern; simpl;
      now apply plus_app. }
  assert (Hreason : search reasoningPattern
                      (formatReply shouldHandle digits reasoning actions escalate)
                    = Some reasoning).
  { unfold formatReply; destruct shouldHandle; cbn [append showBool];
      skip_literal; skip_text reasoningPattern_label; skip_literal;
      apply search_here; unfold reasoningPattern; simpl;
      (apply lazyPlus_app;
       [exact atLineEnd_inside|now apply plain_not_terminated
       |assumption|assumption|reflexivity]). }
  assert (Hactions : search actionsPattern
                       (formatReply shouldHandle digits reasoning actions escalate)
                     = Some actions).
  { unfold formatReply; destruct shouldHandle; cbn [append showBool];
      skip_literal; skip_text actionsPattern_label;
      skip_literal; skip_text actionsPattern_label; skip_literal;
      apply search_here; unfold actionsPattern; simpl;
      (apply lazyPlus_app;
       [exact atEscalateOrEnd_inside
       |apply (all_implies _ _ _ (fun _ _ => eq_refl) Ha)
       |assumption|assumption|destruct escalate; reflexivity]). }
  assert (Hesc : search escalatePattern
                   (formatReply shouldHandle digits reasoning actions escalate)
                 = Some (showBool escalate)).
  { unfold formatReply; destruct shouldHandle; cbn [append showBool];
      skip_literal; skip_text escalatePattern_label;
      skip_literal; skip_text escalatePattern_label;
      skip_literal; skip_text escalatePattern_label; skip_literal;
      destruct escalate; reflexivity. }
  unfold parseDecision; rewrite Hshould, Hconf, Hreason, Hactions, Hesc.
  rewrite Hrt, (splitLines_plain _ Ha); cbn [map filter]; rewrite Hat.
  destruct actions as [|c t]; [congruence|].
  destruct escalate; reflexivity.
Qed.



Lemma resolution_fields (name reasoning : string) (priority : Priority) :
  all is_word name = true -> name <> EmptyString ->
  search assignedAgentPattern (formatResolution name priority reasoning)
  = Some name
  /\ search priorityPattern (formatResolution name priority reasoning)
     = Some priority.
Proof.
  intros Hw Hne; pose proof (word_plain _ Hw) as Hp; split.
  - apply search_here; unfold formatResolution, assignedAgentPattern.
    rewrite stripPrefix_complete; now apply plus_app.
  - unfold formatResolution; cbn [append].
    skip_literal; skip_text priorityPattern_label; skip_literal.
    apply search_here; destruct priority; reflexivity.
Qed.

(** X8.  With two or more willing agents, a conflict-resolution reply in the
    requested format is obeyed: the result is assigned to the agent the
    reply names, at the priority it states, without human review, whether
    or not an evaluator of that name exists.  The result is built from the
    recorded decisions, the name and the priority alone: the reasoning of
    the reply does not reach it. *)
Theorem resolution_is_obeyed (service : Service) (state : EmailTriageState.t)
    (w : World) (name reasoning : string) (priority : Priority) :
  (2 <= length (filter isWilling (EmailTriageState.agentDecisions state)))%nat ->
  all is_word name = true -> name <> EmptyString ->
  service SupervisorLlm
    (conflictPrompt (EmailTriageState.email state)
       (agentAnalysisOf
          (willingAgents (EmailTriageState.agentDecisions state))))
    (calls w)
  = Resolved (Text (formatResolution name priority reasoning)) ->
  exists result w',
    makeRoutingDecision service state w = (Normal result, w')
    /\ result = createTriageResult state name priority name (Some false)
    /\ TriageResult.assignedAgent result = name
    /\ TriageResult.category result = name
    /\ TriageResult.priority result = priority
    /\ TriageResult.requiresHumanReview result = false.
Proof.
  intros Hlen Hw Hne Hreply.
  rewrite <- willingAgents_length in Hlen.
  unfold makeRoutingDecision.
  destruct (willingAgents (EmailTriageState.agentDecisions state))
    as [|top [|second rest]] eqn:Ew; simpl in Hlen; try lia.
  destruct (resolveConflict_cases service state top (second :: rest) w)
    as (w' & Hrun).
  destruct top as [topName decision]; cbv beta iota.
  rewrite Hreply in Hrun.
  destruct (resolution_fields name reasoning priority Hw Hne) as [Hagent Hprio].
  rewrite Hagent, Hprio in Hrun; rewrite Hrun.
  eexists; exists w'; repeat split.
Qed.

Lemma resolution_is_obeyed_witness :
  let idle := AgentDecision.mk false 20 "Not mine" (Some []) (Some false) in
  let support := AgentDecision.mk true 80 "An outage" (Some []) (Some true) in
  let sales := AgentDecision.mk true 90 "A lead" (Some []) (Some false) in
  let state := decideState email_001 idle support sales idle in
  exists result w',
    makeRoutingDecision Stub.conflictLegal state emptyWorld = (Normal result, w')
    /\ result = createTriageResult state "Legal" high "Legal" (Some false)
    /\ TriageResult.assignedAgent result = "Legal"
    /\ TriageResult.category result = "Legal"
    /\ TriageResult.priority result = high
    /\ TriageResult.requiresHumanReview result = false.
Proof.
  intros idle support sales state.
  assert (Hlen : (2 <= length (filter isWilling
                                 (EmailTriageState.agentDecisions state)))%nat)
    by (simpl; lia).
  assert (Hname : "Legal" <> EmptyString) by discriminate.
  exact (resolution_is_obeyed Stub.conflictLegal state emptyWorld "Legal"
           "Contract terms" high Hlen eq_refl Hname eq_refl).
Defined.

(* ------------------------------------------------------------------ *)
(** *** Every run of the supervisor *)

(** The three ways of the Decide step. *)
Lemma makeRoutingDecision_paths (service : Service) (state : EmailTriageState.t)
    (w : World) :
  exists result w',
    makeRoutingDecision service state w = (Normal result, w')
    /\ ((willingAgents (EmailTriageState.agentDecisions state) = []
         /\ result = createTriageResult state "General" medium "General"
                                        (Some true)
         /\ w' = w)
        \/ (exists name decision,
              willingAgents (EmailTriageState.agentDecisions state)
              = [(name, decision)]
              /\ result = createTriageResult state name
                            (determinePriority decision) name
                            (AgentDecision.escalate decision)
              /\ w' = w)
        \/ (exists top second rest agent priority request,
              willingAgents (EmailTriageState.agentDecisions state)
              = top :: second :: rest
              /\ result = createTriageResult state agent priority agent
                                             (Some false)
              /\ calls w' = calls w ++ [(SupervisorLlm, request)])).
Proof.
  unfold makeRoutingDecision.
  destruct (willingAgents (EmailTriageState.agentDecisions state))
    as [|[name decision] [|second rest]].
  - eexists; eexists; split; [reflexivity|]; left; auto.
  - eexists; eexists; split; [reflexivity|]; right; left.
    exists name, decision; auto.
  - unfold resolveConflict, tryCatch, bind, invoke.
    destruct (service SupervisorLlm _ (calls w)) as [[content|]|error]; simpl.
    + destruct (search assignedAgentPattern content) as [agent|]; simpl;
        eexists; eexists; (split; [reflexivity|]); right; right;
        do 6 eexists; repeat split.
    + eexists; eexists; split; [reflexivity|]; right; right;
        do 6 eexists; repeat split.
    + eexists; eexists; split; [reflexivity|]; right; right;
        do 6 eexists; repeat split.
Qed.

Lemma createTriageResult_summary (state : EmailTriageState.t)
    (category agent : string) (priority : Priority) (review : option bool) :
  TriageResult.summary
    (createTriageResult state category priority agent review) <> EmptyString.
Proof.
  unfold createTriageResult; simpl.
  destruct (getProperty _ agent) as [d|]; [|discriminate].
  destruct (AgentDecision.reasoning d); [discriminate|discriminate].
Qed.

(** What every result has, whichever way it was reached. *)
Lemma triageEmail_result (service : Service) (email : Email.t)
    (w : World) :
  exists result w',
    triageEmail service email w = (Normal result, w')
    /\ TriageResult.emailId result = Email.id email
    /\ TriageResult.summary result <> EmptyString.
Proof.
  destruct (triageEmail_cases service email w)
    as (spam & w1 & _ & [[_ ->]|[_ (c & s & h & w2 & w3 & w4 & _ & _ & _ & ->)]]).
  - eexists; eexists; split; [reflexivity|]; split;
      [reflexivity|apply createTriageResult_summary].
  - destruct (makeRoutingDecision_paths service
                (decideState email spam c s h) w4)
      as (result & w' & -> & [(_ & -> & _)
                             |[(n & d & _ & -> & _)
                              |(t & s2 & r & a & p & q & _ & -> & _)]]);
      eexists; eexists; (split; [reflexivity|]); split;
      solve [reflexivity | apply createTriageResult_summary].
Qed.

(** X9.  Every email gets a result, and the result carries the identifier
    of the email it was computed for and a summary that is not empty. *)
Theorem result_identifies_email (service : Service) (email : Email.t)
    (w : World) :
  exists result w',
    triageEmail service email w = (Normal result, w')
    /\ TriageResult.emailId result = Email.id email
    /\ TriageResult.summary result <> EmptyString.
Proof.
  destruct (triageEmail_result service email w) as (result & w' & Hrun & Hfields).
  exists result, w'; split; [exact Hrun|exact Hfields].
Qed.

(** X10.  One email costs one, four or five calls to the service, in a fixed
    order: the spam filter; then support, sales and HR; then, last and only
    after all four, the supervisor's own call. *)
Theorem calls_per_email (service : Service) (email : Email.t) (w : World) :
  exists result w',
    triageEmail service email w = (Normal result, w')
    /\ (map fst (callsSince w w') = [AgentLlm SpamFilter]
        \/ map fst (callsSince w w')
           = [AgentLlm SpamFilter; AgentLlm CustomerSupport; AgentLlm Sales;
              AgentLlm HR]
        \/ map fst (callsSince w w')
           = [AgentLlm SpamFilter; AgentLlm CustomerSupport; AgentLlm Sales;
              AgentLlm HR; SupervisorLlm]).
Proof.
  destruct (triageEmail_cases service email w)
    as (spam & w1 & Hs
        & [[_ ->]|[_ (c & s & h & w2 & w3 & w4 & Hc & Hsa & Hh & ->)]]).
  - eexists; eexists; split; [reflexivity|]; left.
    now rewrite (callsSince_app _ _ _ (evaluate_calls _ _ _ _ _ _ Hs)).
  - apply evaluate_calls in Hs, Hc, Hsa, Hh.
    assert (Hfour : calls w4
                    = calls w ++ [(AgentLlm SpamFilter, prompt SpamFilter email);
                                  (AgentLlm CustomerSupport,
                                   prompt CustomerSupport email);
                                  (AgentLlm Sales, prompt Sales email);
                                  (AgentLlm HR, prompt HR email)])
      by (rewrite Hh, Hsa, Hc, Hs, <- !app_assoc; reflexivity).
    destruct (makeRoutingDecision_paths service
                (decideState email spam c s h) w4)
      as (result & w' & -> & [(_ & _ & ->)
                             |[(n & d & _ & _ & ->)
                              |(t & s2 & r & a & p & q & _ & _ & Hq)]]);
      eexists; eexists; (split; [reflexivity|]); right.
    + left; now rewrite (callsSince_app _ _ _ Hfour).
    + left; now rewrite (callsSince_app _ _ _ Hfour).
    + right; rewrite Hfour, <- app_assoc in Hq.
      now rewrite (callsSince_app _ _ _ Hq).
Qed.

Lemma decideState_agent (email : Email.t)
    (spam customerSupport sales hr : AgentDecision.t)
    (e : string * AgentDecision.t) :
  In e (willingAgents
          (EmailTriageState.agentDecisions
             (decideState email spam customerSupport sales hr))) ->
  In (fst e) ["SpamFilter"; "CustomerSupport"; "Sales"; "HR"].
Proof.
  intros H; apply willingAgents_In in H; destruct H as [H _].
  simpl in H; destruct H as [<-|[<-|[<-|[<-|[]]]]]; simpl; tauto.
Qed.

(** X11.  Human review is asked for in two situations only: nobody is
    willing, and the email goes to "General" at medium; or the one willing
    evaluator escalates, and the email goes to that evaluator as urgent.
    A spam short-circuit and a resolved conflict never ask for it. *)
Theorem human_review_cases (service : Service) (email : Email.t) (w w' : World)
    (result : TriageResult.t) :
  triageEmail service email w = (Normal result, w') ->
  TriageResult.requiresHumanReview result = true ->
  (TriageResult.assignedAgent result = "General"
   /\ TriageResult.category result = "General"
   /\ TriageResult.priority result = medium)
  \/ (In (TriageResult.assignedAgent result)
         ["SpamFilter"; "CustomerSupport"; "Sales"; "HR"]
      /\ TriageResult.category result = TriageResult.assignedAgent result
      /\ TriageResult.priority result = urgent).
Proof.
  intros Hrun Hreview.
  destruct (triageEmail_cases service email w)
    as (spam & w1 & _ & [[_ H]|[_ (c & s & h & w2 & w3 & w4 & _ & _ & _ & H)]]);
    rewrite H in Hrun.
  - inversion Hrun; subst; discriminate.
  - pose proof (decideState_agent email spam c s h) as Hnames.
    destruct (makeRoutingDecision_paths service
                (decideState email spam c s h) w4)
      as (r & u & Hr & [(_ & -> & _)
                       |[(n & d & Hw & -> & _)
                        |(t & s2 & rest & a & p & q & _ & -> & _)]]);
      rewrite Hr in Hrun; inversion Hrun; subst.
    + left; repeat split.
    + right; simpl in *.
      split; [apply (Hnames (n, d)); rewrite Hw; now left|].
      split; [reflexivity|].
      unfold determinePriority, truthy.
      destruct (AgentDecision.escalate d) as [[|]|]; [reflexivity|..];
        discriminate.
    + discriminate.
Qed.

Lemma human_review_cases_witness :
  exists result w',
    triageEmail Stub.nobody email_005 emptyWorld = (Normal result, w')
    /\ TriageResult.requiresHumanReview result = true
    /\ ((TriageResult.assignedAgent result = "General"
         /\ TriageResult.category result = "General"
         /\ TriageResult.priority result = medium)
        \/ (In (TriageResult.assignedAgent result)
               ["SpamFilter"; "CustomerSupport"; "Sales"; "HR"]
            /\ TriageResult.category result = TriageResult.assignedAgent result
            /\ TriageResult.priority result = urgent)).
Proof.
  eexists; eexists.
  split; [vm_compute; reflexivity|].
  split; [reflexivity|].
  eapply (human_review_cases Stub.nobody email_005 emptyWorld);
    [vm_compute; reflexivity|reflexivity].
Defined.

Lemma evaluate_fails (service : Service) (a : Agent) (email : Email.t)
    (w : World) :
  callFails (service (AgentLlm a) (prompt a email) (calls w)) ->
  exists error,
    evaluate service a email w =
      (Normal (degraded a),
       mkWorld (calls w ++ [(AgentLlm a, prompt a email)])
               (console w ++ [EvaluationError a error])).
Proof.
  destruct (service (AgentLlm a) (prompt a email) (calls w))
    as [[content|]|error] eqn:E; intros H; [destruct H|..].
  - eexists; now apply evaluate_complex.
  - exists error; now apply evaluate_rejected.
Qed.

(** X12.  When every evaluator's call fails, the email is not lost: it goes
    to "General" at medium with human review, with the synthesized summary
    and action.  Exactly the four evaluators are called and the supervisor's
    own call is not made.  Four failures are logged: the spam filter's
    first, then those of the three specialists, one each, in the order in
    which their calls settle. *)
Theorem total_outage (service : Service) (email : Email.t) (w : World) :
  (forall a request history,
     callFails (service (AgentLlm a) request history)) ->
  exists w' e1 e2 e3 e4 specialists,
    triageEmail service email w
    = (Normal (TriageResult.mk (Email.id email) "General" medium "General"
                 "Email categorized as General" ["Route to General team"]
                 true), w')
    /\ map fst (callsSince w w')
       = [AgentLlm SpamFilter; AgentLlm CustomerSupport; AgentLlm Sales;
          AgentLlm HR]
    /\ console w' = console w ++ EvaluationError SpamFilter e1 :: specialists
    /\ Permutation specialists
                   [EvaluationError CustomerSupport e2;
                    EvaluationError Sales e3; EvaluationError HR e4].
Proof.
  intros Hdown.
  assert (Hfail : forall a u, exists error,
             evaluate service a email u =
               (Normal (degraded a),
                mkWorld (calls u ++ [(AgentLlm a, prompt a email)])
                        (console u ++ [EvaluationError a error])))
    by (intros a u; apply evaluate_fails, Hdown).
  destruct (Hfail SpamFilter w) as (e1 & H1).
  match type of H1 with
  | _ = (_, ?u) => destruct (Hfail CustomerSupport u) as (e2 & H2)
  end.
  match type of H2 with
  | _ = (_, ?u) => destruct (Hfail Sales u) as (e3 & H3)
  end.
  match type of H3 with
  | _ = (_, ?u) => destruct (Hfail HR u) as (e4 & H4)
  end.
  rewrite (triageEmail_decide service email w _ _ _ _ _ _ _ _
             H1 H2 H3 H4 eq_refl).
  eexists; exists e1, e2, e3, e4; eexists; split; [reflexivity|]; split;
    [|split].
  - unfold callsSince; simpl calls.
    rewrite <- !app_assoc, skipn_app, skipn_all, Nat.sub_diag; reflexivity.
  - simpl console; rewrite <- !app_assoc; reflexivity.
  - apply Permutation_refl.
Qed.

Lemma total_outage_witness :
  (forall a request history,
     callFails (Stub.down (AgentLlm a) request history))
  /\ exists w' e1 e2 e3 e4 specialists,
       triageEmail Stub.down email_001 emptyWorld
       = (Normal (TriageResult.mk "email-001" "General" medium "General"
                    "Email categorized as General" ["Route to General team"]
                    true), w')
       /\ map fst (callsSince emptyWorld w')
          = [AgentLlm SpamFilter; AgentLlm CustomerSupport; AgentLlm Sales;
             AgentLlm HR]
       /\ console w'
          = console emptyWorld ++ EvaluationError SpamFilter e1 :: specialists
       /\ Permutation specialists
                      [EvaluationError CustomerSupport e2;
                       EvaluationError Sales e3; EvaluationError HR e4].
Proof.
  split; [intros a request history; exact I|].
  exact (total_outage Stub.down email_001 emptyWorld (fun _ _ _ => I)).
Defined.

(* ------------------------------------------------------------------ *)
(** *** The batch with the supervisor *)

Lemma batchRun_ids (service : Service) (emails : list Email.t) (w w' : World)
    (results : list TriageResult.t) :
  batchRun (triageEmail service) emails w results w' ->
  map TriageResult.emailId results = map Email.id emails.
Proof.
  induction 1 as [w|email emails w result w1 results w2 Ht _ IH
                 |email emails w error w1 results w2 Ht _ _].
  - reflexivity.
  - destruct (triageEmail_result service email w)
      as (r & u & Hr & Hid & _).
    rewrite Ht in Hr; inversion Hr; subst; simpl; now rewrite Hid, IH.
  - destruct (triageEmail_result service email w) as (r & u & Hr & _).
    rewrite Ht in Hr; discriminate.
Qed.

(** X13.  With the credential present the batch returns one result per
    email, in input order, each carrying the identifier of its email: with
    the supervisor as it is, no email is skipped. *)
Theorem batch_results_match_emails (service : Service) (c : ascii)
    (key : string) (emails : list Email.t) (w : World) :
  exists results w',
    Batch.runBatch service (Some (String c key)) emails w
    = (Batch.Completed results, w')
    /\ map TriageResult.emailId results = map Email.id emails
    /\ length results = length emails.
Proof.
  unfold Batch.runBatch.
  pose proof (processEmails_batchRun (triageEmail service) emails w) as Hrun.
  destruct (Batch.processEmails (triageEmail service) emails w)
    as [results w']; simpl in Hrun.
  exists results, w'; split; [reflexivity|].
  pose proof (batchRun_ids _ _ _ _ _ Hrun) as Hids; split; [exact Hids|].
  now rewrite <- (length_map TriageResult.emailId), Hids, length_map.
Qed.

(* ------------------------------------------------------------------ *)
(** *** The rule-based demo *)

Lemma lowerChar_idempotent (c : ascii) : lowerChar (lowerChar c) = lowerChar c.
Proof. destruct c as [[] [] [] [] [] [] [] []]; reflexivity. Qed.

Lemma toLowerCase_idempotent (s : string) :
  toLowerCase (toLowerCase s) = toLowerCase s.
Proof.
  induction s as [|c s IH]; simpl; [reflexivity|].
  now rewrite lowerChar_idempotent, IH.
Qed.

(** X14.  The rule-based triage keeps the identifier of the email and always
    returns one of seven rows of its decision table.  In particular it asks
    for human review only on an urgent support case or a high sales case,
    and assigns only "General" or one of the four agents. *)
Theorem demo_decision_table (email : SimpleDemo.Email.t) :
  SimpleDemo.TriageResult.emailId (SimpleDemo.triageEmail email)
  = SimpleDemo.Email.id email
  /\ In (SimpleDemo.TriageResult.category (SimpleDemo.triageEmail email),
         SimpleDemo.TriageResult.priority (SimpleDemo.triageEmail email),
         SimpleDemo.TriageResult.assignedAgent (SimpleDemo.triageEmail email),
         SimpleDemo.TriageResult.requiresHumanReview
           (SimpleDemo.triageEmail email))
        [("General", "medium", "General", false);
         ("Spam/Newsletter", "low", "SpamFilter", false);
         ("Customer Support", "urgent", "CustomerSupport", true);
         ("Customer Support", "high", "CustomerSupport", false);
         ("Sales", "high", "Sales", true);
         ("Sales", "high", "Sales", false);
         ("HR", "medium", "HR", false)].
Proof.
  unfold SimpleDemo.triageEmail.
  destruct (SimpleDemo.spamWords _ _);
    [|destruct (SimpleDemo.supportWords _);
      [destruct (SimpleDemo.urgentWords _)
      |destruct (SimpleDemo.salesWords _);
       [destruct (_ || _)|destruct (SimpleDemo.hrWords _)]]];
    (split; [reflexivity|]); simpl; tauto.
Qed.

(** X15.  The rule-based triage ignores the case of the subject and of the
    body: putting both in lower case does not change the result. *)
Theorem demo_ignores_case (id from to subject body : string) (timestamp : Z) :
  SimpleDemo.triageEmail
    (SimpleDemo.Email.mk id from to (toLowerCase subject) (toLowerCase body)
                         timestamp)
  = SimpleDemo.triageEmail
      (SimpleDemo.Email.mk id from to subject body timestamp).
Proof.
  unfold SimpleDemo.triageEmail; simpl.
  now rewrite !toLowerCase_idempotent.
Qed.

(** The sender is matched as it is written. *)
Example demo_sender_case :
  SimpleDemo.TriageResult.assignedAgent
    (SimpleDemo.triageEmail
       (SimpleDemo.Email.mk "m1" "noreply@shop.example" "a@b.example"
                            "Hello" "Greetings" 0)) = "SpamFilter"
  /\ SimpleDemo.TriageResult.assignedAgent
       (SimpleDemo.triageEmail
          (SimpleDemo.Email.mk "m1" "NoReply@shop.example" "a@b.example"
                               "Hello" "Greetings" 0)) = "General".
Proof. split; reflexivity. Qed.

Lemma getCount_setCount_same (o : SimpleDemo.Counts) (k : string) (v : Z) :
  SimpleDemo.getCount (SimpleDemo.setCount o k v) k = Some v.
Proof.
  induction o as [|[k' v'] o IH]; simpl; [now rewrite String.eqb_refl|].
  destruct (String.eqb k' k) eqn:E; simpl;
    [now rewrite String.eqb_refl|now rewrite E].
Qed.

Lemma getCount_setCount_other (o : SimpleDemo.Counts) (k k' : string) (v : Z) :
  k' <> k ->
  SimpleDemo.getCount (SimpleDemo.setCount o k v) k' = SimpleDemo.getCount o k'.
Proof.
  intros Hne; induction o as [|[k0 v0] o IH]; simpl.
  - destruct (String.eqb k k') eqn:E; [|reflexivity].
    apply String.eqb_eq in E; congruence.
  - destruct (String.eqb k0 k) eqn:E; simpl.
    + apply String.eqb_eq in E; subst k0.
      destruct (String.eqb k k') eqn:E'; [|reflexivity].
      apply String.eqb_eq in E'; congruence.
    + now rewrite IH.
Qed.

Lemma countsTotal_setCount (o : SimpleDemo.Counts) (k : string) (v : Z) :
  countsTotal (SimpleDemo.setCount o k v)
  = countsTotal o
    - match SimpleDemo.getCount o k with Some old => old | None => 0 end + v.
Proof.
  induction o as [|[k' v'] o IH]; simpl; [lia|].
  destruct (String.eqb k' k); simpl; [lia|rewrite IH; lia].
Qed.

Lemma getCount_None_key (o : SimpleDemo.Counts) (k : string) :
  SimpleDemo.getCount o k = None -> ~ In k (map fst o).
Proof.
  induction o as [|[k' v'] o IH]; simpl; [tauto|].
  destruct (String.eqb k' k) eqn:E; [discriminate|].
  apply String.eqb_neq in E; intros H [Hk|Hk]; [congruence|now apply IH].
Qed.

Lemma setCount_keys (o : SimpleDemo.Counts) (k : string) (v : Z) :
  NoDup (map fst o) -> NoDup (map fst (SimpleDemo.setCount o k v)).
Proof.
  induction o as [|[k' v'] o IH]; simpl; intros Hnd.
  - constructor; [tauto|constructor].
  - inversion Hnd as [|? ? Hnotin Hrest]; subst.
    destruct (String.eqb k' k) eqn:E; simpl.
    + apply String.eqb_eq in E; subst k'; now constructor.
    + constructor; [|now apply IH].
      intros Hin; apply Hnotin.
      apply String.eqb_neq in E.
      clear -Hin E; induction o as [|[k0 v0] o IHo]; simpl in *.
      * destruct Hin as [Hin|[]]; congruence.
      * destruct (String.eqb k0 k); simpl in Hin;
          destruct Hin as [Hin|Hin]; auto; congruence.
Qed.

Lemma occurrences_snoc (k x : string) (keys : list string) :
  occurrences k (keys ++ [x])
  = occurrences k keys + (if String.eqb k x then 1 else 0).
Proof.
  unfold occurrences; rewrite filter_app, length_app; simpl.
  destruct (String.eqb k x); simpl; lia.
Qed.

Lemma occurrences_nonneg (k : string) (keys : list string) :
  0 <= occurrences k keys.
Proof. unfold occurrences; lia. Qed.

(** Counting keys one after the other gives the table of their counts. *)
Lemma increment_counts (keys : list string) :
  countsOf (fold_left SimpleDemo.increment keys []) keys.
Proof.
  induction keys as [|x keys IH] using rev_ind.
  - split; [intros k; reflexivity|split; [reflexivity|constructor]].
  - rewrite fold_left_app; simpl.
    set (o := fold_left SimpleDemo.increment keys []) in *.
    destruct IH as (Hget & Hsum & Hnd).
    assert (Hold : match SimpleDemo.getCount o x with
                   | Some v => if v =? 0 then 0 else v
                   | None => 0
                   end = occurrences x keys).
    { rewrite (Hget x); destruct (occurrences x keys =? 0) eqn:E.
      - apply Z.eqb_eq in E; now rewrite E.
      - now rewrite E. }
    assert (Hold' : match SimpleDemo.getCount o x with
                    | Some old => old
                    | None => 0
                    end = occurrences x keys).
    { rewrite (Hget x); destruct (occurrences x keys =? 0) eqn:E;
        [apply Z.eqb_eq in E; now rewrite E|reflexivity]. }
    unfold SimpleDemo.increment; rewrite Hold.
    split; [|split].
    + intros k; rewrite occurrences_snoc.
      destruct (String.eqb k x) eqn:E.
      * apply String.eqb_eq in E; subst k.
        rewrite getCount_setCount_same.
        pose proof (occurrences_nonneg x keys).
        destruct (occurrences x keys + 1 =? 0) eqn:E0;
          [apply Z.eqb_eq in E0; lia|reflexivity].
      * apply String.eqb_neq in E.
        rewrite getCount_setCount_other by assumption.
        now rewrite Z.add_0_r.
    + rewrite countsTotal_setCount, Hold', Hsum, length_app; simpl; lia.
    + now apply setCount_keys.
Qed.

Lemma tally_fold (results : list SimpleDemo.TriageResult.t) :
  forall s0,
    SimpleDemo.total (fold_left SimpleDemo.tally results s0)
    = SimpleDemo.total s0
    /\ SimpleDemo.byAgent (fold_left SimpleDemo.tally results s0)
       = fold_left SimpleDemo.increment
           (map SimpleDemo.TriageResult.assignedAgent results)
           (SimpleDemo.byAgent s0)
    /\ SimpleDemo.byPriority (fold_left SimpleDemo.tally results s0)
       = fold_left SimpleDemo.increment
           (map SimpleDemo.TriageResult.priority results)
           (SimpleDemo.byPriority s0)
    /\ SimpleDemo.requiresReview (fold_left SimpleDemo.tally results s0)
       = SimpleDemo.requiresReview s0
         + Z.of_nat (length (filter SimpleDemo.TriageResult.requiresHumanReview
                                    results)).
Proof.
  induction results as [|r results IH]; intros s0; simpl.
  - repeat split; lia.
  - destruct (IH (SimpleDemo.tally s0 r)) as (Ht & Ha & Hp & Hr).
    rewrite Ht, Ha, Hp, Hr; repeat split.
    unfold SimpleDemo.tally; simpl.
    destruct (SimpleDemo.TriageResult.requiresHumanReview r); simpl length; lia.
Qed.

Lemma demo_loop_is_map (emails : list SimpleDemo.Email.t) :
  forall results,
    fold_left (fun results email => results ++ [SimpleDemo.triageEmail email])
              emails results
    = results ++ map SimpleDemo.triageEmail emails.
Proof.
  induction emails as [|email emails IH]; intros results; simpl.
  - now rewrite app_nil_r.
  - now rewrite IH, <- app_assoc.
Qed.

(** X16.  The demo returns one result per email, in order, and its summary
    adds up: the total is the number of emails; every agent, and every
    priority, that occurs among the results is listed once with the number
    of results that carry it, the others not at all; each table sums to
    the total; and the review counter is the number of results flagged. *)
Theorem demo_summary_adds_up (emails : list SimpleDemo.Email.t) :
  fst (SimpleDemo.run emails) = map SimpleDemo.triageEmail emails
  /\ SimpleDemo.total (snd (SimpleDemo.run emails)) = Z.of_nat (length emails)
  /\ countsOf (SimpleDemo.byAgent (snd (SimpleDemo.run emails)))
              (map SimpleDemo.TriageResult.assignedAgent
                   (fst (SimpleDemo.run emails)))
  /\ countsOf (SimpleDemo.byPriority (snd (SimpleDemo.run emails)))
              (map SimpleDemo.TriageResult.priority
                   (fst (SimpleDemo.run emails)))
  /\ SimpleDemo.requiresReview (snd (SimpleDemo.run emails))
     = Z.of_nat
         (length (filter SimpleDemo.TriageResult.requiresHumanReview
                         (fst (SimpleDemo.run emails)))).
Proof.
  unfold SimpleDemo.run; simpl fst; simpl snd.
  rewrite demo_loop_is_map; simpl app.
  unfold SimpleDemo.summarize.
  destruct (tally_fold (map SimpleDemo.triageEmail emails)
              (SimpleDemo.mkSummary
                 (Z.of_nat (length (map SimpleDemo.triageEmail emails)))
                 [] [] 0)) as (Ht & Ha & Hp & Hr).
  rewrite Ht, Ha, Hp, Hr; simpl.
  split; [reflexivity|]; split; [now rewrite length_map|].
  split; [apply increment_counts|]; split; [apply increment_counts|reflexivity].
Qed.

(* ------------------------------------------------------------------ *)
(** *** From the replies to the result *)

Lemma isWilling_declined (name : string) (d : AgentDecision.t) :
  AgentDecision.shouldHandle d = false -> isWilling (name, d) = false.
Proof. unfold isWilling; simpl; now intros ->. Qed.

(** X17.  End to end: when one specialist answers in the requested format
    that it should handle the email, with a confidence above 50, and the
    replies of the other three evaluators do not contain "SHOULD_HANDLE:
    true", the email is assigned to that specialist under its own name,
    at the priority the ladder gives, with the specialist's reasoning as
    summary, its action as the suggested action and its escalation flag as
    the request for human review. *)
Theorem single_reply_end_to_end (service : Service) (email : Email.t)
    (w : World) (a : Agent) (digits reasoning actions : string)
    (escalate : bool) :
  a <> SpamFilter ->
  all is_digit digits = true -> digits <> EmptyString ->
  50 < parseInt digits ->
  plain reasoning = true -> reasoning <> EmptyString ->
  trim reasoning = reasoning ->
  plain actions = true -> actions <> EmptyString ->
  trim actions = actions ->
  (forall history,
     service (AgentLlm a) (prompt a email) history
     = Resolved (Text (formatReply true digits reasoning actions escalate))) ->
  (forall b history,
     b <> a ->
     exists content,
       service (AgentLlm b) (prompt b email) history = Resolved (Text content)
       /\ includes content "SHOULD_HANDLE: true" = false) ->
  exists w',
    triageEmail service email w
    = (Normal
         (TriageResult.mk (Email.id email) (getName a)
            (determinePriority
               (AgentDecision.mk true (parseInt digits) reasoning
                                 (Some [actions]) (Some escalate)))
            (getName a) reasoning [actions] escalate), w').
Proof.
  intros Hspam Hdigits Hd0 Hconf Hr Hr0 Hrt Ha Ha0 Hat Hself Hothers.
  set (d := AgentDecision.mk true (parseInt digits) reasoning
                             (Some [actions]) (Some escalate)).
  assert (Eself : forall u,
             evaluate service a email u
             = (Normal d, mkWorld (calls u ++ [(AgentLlm a, prompt a email)])
                                  (console u))).
  { intros u; rewrite (evaluate_text _ _ _ _ _ (Hself (calls u))).
    now rewrite formatReply_parse. }
  assert (Eother : forall b u, b <> a ->
             exists d',
               evaluate service b email u
               = (Normal d', mkWorld (calls u ++ [(AgentLlm b, prompt b email)])
                                     (console u))
               /\ AgentDecision.shouldHandle d' = false).
  { intros b u Hb; destruct (Hothers b (calls u) Hb) as (content & Hc & Hinc).
    exists (parseDecision content); split; [now apply evaluate_text|exact Hinc]. }
  assert (Hwilling : forall name, isWilling (name, d) = true).
  { intros name; unfold isWilling; simpl; now apply gtb_above. }
  assert (Hsummary : isEmpty reasoning = false)
    by (destruct reasoning; [congruence|reflexivity]).
  destruct (Eother SpamFilter w (not_eq_sym Hspam)) as (dS & HS & US).
  destruct a; [| | |congruence].
  - match type of HS with _ = (_, ?u) => pose proof (Eself u) as HC end.
    match type of HC with _ = (_, ?u) =>
      destruct (Eother Sales u) as (dSa & HSa & USa); [discriminate|] end.
    match type of HSa with _ = (_, ?u) =>
      destruct (Eother HR u) as (dH & HH & UH); [discriminate|] end.
    rewrite (triageEmail_decide service email w _ _ _ _ _ _ _ _ HS HC HSa HH)
      by (now rewrite US).
    unfold makeRoutingDecision.
    rewrite (willingAgents_single _ ("CustomerSupport", d)).
    + eexists; unfold ret, createTriageResult; simpl; rewrite Hsummary.
      reflexivity.
    + simpl; rewrite (isWilling_declined _ _ US), (isWilling_declined _ _ USa),
        (isWilling_declined _ _ UH), Hwilling; reflexivity.
  - match type of HS with _ = (_, ?u) =>
      destruct (Eother CustomerSupport u) as (dC & HC & UC); [discriminate|] end.
    match type of HC with _ = (_, ?u) => pose proof (Eself u) as HSa end.
    match type of HSa with _ = (_, ?u) =>
      destruct (Eother HR u) as (dH & HH & UH); [discriminate|] end.
    rewrite (triageEmail_decide service email w _ _ _ _ _ _ _ _ HS HC HSa HH)
      by (now rewrite US).
    unfold makeRoutingDecision.
    rewrite (willingAgents_single _ ("Sales", d)).
    + eexists; unfold ret, createTriageResult; simpl; rewrite Hsummary.
      reflexivity.
    + simpl; rewrite (isWilling_declined _ _ US), (isWilling_declined _ _ UC),
        (isWilling_declined _ _ UH), Hwilling; reflexivity.
  - match type of HS with _ = (_, ?u) =>
      destruct (Eother CustomerSupport u) as (dC & HC & UC); [discriminate|] end.
    match type of HC with _ = (_, ?u) =>
      destruct (Eother Sales u) as (dSa & HSa & USa); [discriminate|] end.
    match type of HSa with _ = (_, ?u) => pose proof (Eself u) as HH end.
    rewrite (triageEmail_decide service email w _ _ _ _ _ _ _ _ HS HC HSa HH)
      by (now rewrite US).
    unfold makeRoutingDecision.
    rewrite (willingAgents_single _ ("HR", d)).
    + eexists; unfold ret, createTriageResult; simpl; rewrite Hsummary.
      reflexivity.
    + simpl; rewrite (isWilling_declined _ _ US), (isWilling_declined _ _ UC),
        (isWilling_declined _ _ USa), Hwilling; reflexivity.
Qed.

Lemma single_reply_end_to_end_witness :
  exists w',
    triageEmail Stub.salesOnly email_002 emptyWorld
    = (Normal (TriageResult.mk "email-002" "Sales" high "Sales"
                 "Stubbed analysis" ["Reply to sender"] false), w').
Proof.
  apply (single_reply_end_to_end Stub.salesOnly email_002 emptyWorld Sales
           "95" "Stubbed analysis" "Reply to sender" false);
    try solve [reflexivity | discriminate].
  intros b history Hb; destruct b; try congruence;
    eexists; split; reflexivity.
Defined.
